(** * Product API (src/server.js): a shallow embedding and its properties

    The Express application of [src/server.js] keeps one in-memory array
    [products] and serves it through seven routes.  This file embeds the
    string helpers the handlers call, the JavaScript values a JSON body can
    carry, the middlewares, the handlers, the route table in its
    registration order and the terminal error handler, and then proves the
    properties of the service.

    Conventions of the embedding.
    - Strings are sequences of code units, and [toLowerCase], [trim],
      [parseInt]'s white space are given on the ASCII range: on ASCII
      strings they are the ECMAScript methods.  Statements that depend on
      them being exact carry [ascii_only] premises.
    - JSON numbers are IEEE 754 doubles ([PrimFloat.float]), as in
      JavaScript.  The integers read by [parseInt] from the query string are
      kept exact in [Z]; they are the doubles of the code as long as page,
      limit and offset stay below 2^53, which [exact_param] ensures.
    - A request carries its path already split at ['/'] into decoded,
      non-empty segments (a trailing slash dropped), the [x-api-key]
      header, the four query parameters the service reads (each absent or
      one string) and a body.  [http_request] and [serve] describe the
      application from its first middleware, [bodyParser.json()], which
      either refuses the body or hands the parsed object to the routes;
      [request] and [handle] describe the routes on a parsed body.
    - The logger middleware only prints and always calls [next()]; it is
      not represented. *)

From Stdlib Require Import Floats Ascii String ZArith.
From stdpp Require Import base option list strings gmap.

Open Scope string_scope.
Set Warnings "-register-all,-clear-no-such-hyp".

(** ** String helpers *)

Module Js.

(** [String.prototype.toLowerCase] on ASCII: ['A'..'Z'] go to ['a'..'z']. *)
Definition lower_char (c : ascii) : ascii :=
  let n := Ascii.nat_of_ascii c in
  if (65 <=? n)%nat && (n <=? 90)%nat then Ascii.ascii_of_nat (n + 32) else c.

Fixpoint toLowerCase (s : string) : string :=
  match s with
  | EmptyString => EmptyString
  | String c s' => String (lower_char c) (toLowerCase s')
  end.

(** [s.includes(t)]: [t] occurs in [s] as a contiguous substring. *)
Fixpoint includes (s t : string) : bool :=
  String.prefix t s ||
  match s with
  | EmptyString => false
  | String _ s' => includes s' t
  end.

(** ECMAScript white space and line terminators in the ASCII range:
    TAB, LF, VT, FF, CR and SPACE. *)
Definition is_white (c : ascii) : bool :=
  let n := Ascii.nat_of_ascii c in
  ((9 <=? n)%nat && (n <=? 13)%nat) || (n =? 32)%nat.

Fixpoint trimStart (s : string) : string :=
  match s with
  | String c s' => if is_white c then trimStart s' else s
  | EmptyString => EmptyString
  end.

Fixpoint trimEnd (s : string) : string :=
  match s with
  | EmptyString => EmptyString
  | String c s' =>
      match trimEnd s' with
      | EmptyString => if is_white c then EmptyString else String c EmptyString
      | t => String c t
      end
  end.

Definition trim (s : string) : string := trimEnd (trimStart s).

(** [Array.prototype.join]. *)
Fixpoint join (sep : string) (l : list string) : string :=
  match l with
  | [] => ""
  | [x] => x
  | x :: l' => x ++ sep ++ join sep l'
  end.

(** Decimal digits, for [parseInt(s, 10)]. *)
Definition digit_of (c : ascii) : option Z :=
  let n := Ascii.nat_of_ascii c in
  if (48 <=? n)%nat && (n <=? 57)%nat then Some (Z.of_nat (n - 48)) else None.

(** The longest prefix of decimal digits of [s], read left to right with
    accumulator [acc]; [seen] records whether a digit was consumed. *)
Fixpoint digits (s : string) (acc : Z) (seen : bool) : option Z :=
  match s with
  | EmptyString => if seen then Some acc else None
  | String c s' =>
      match digit_of c with
      | Some d => digits s' (10 * acc + d)%Z true
      | None => if seen then Some acc else None
      end
  end.

(** [parseInt(s, 10)]: leading white space is skipped, an optional sign is
    read, then the longest run of decimal digits; [None] stands for [NaN]
    (no digit found). *)
Definition parseInt (s : string) : option Z :=
  match trimStart s with
  | String "-" s' => Z.opp <$> digits s' 0%Z false
  | String "+" s' => digits s' 0%Z false
  | s' => digits s' 0%Z false
  end.

(** The values a parsed JSON body can hold, and [undefined] for a property
    that is absent. *)
Inductive value : Type :=
  | Undefined
  | Null
  | Bool (b : bool)
  | Num (x : float)
  | Str (s : string)
  | Arr (elems : list value)
  | Obj (props : list (string * value)).

(** ToBoolean. *)
Definition truthy (v : value) : bool :=
  match v with
  | Undefined | Null => false
  | Bool b => b
  | Num x => negb (PrimFloat.is_zero x || PrimFloat.is_nan x)
  | Str s => negb (String.eqb s "")
  | Arr _ | Obj _ => true
  end.

(** Own-property read [o[k]] on the parsed body. *)
Fixpoint get (k : string) (o : list (string * value)) : value :=
  match o with
  | [] => Undefined
  | (k', v) :: o' => if String.eqb k k' then v else get k o'
  end.

End Js.

(** ** The data model *)

(** A stored product.  [id] is assigned by the server.  [name], [price],
    [category] and [inStock] only ever hold what [validateProduct] has let
    through (lemma [validateProduct_typed]), so they carry their JavaScript
    type; [description] is not examined by the validation and holds any
    value of the body. *)
Record product := Product {
  id : string;
  name : string;
  description : Js.value;
  price : float;
  category : string;
  inStock : bool
}.

(** The service's mutable state: the array [products], and how many times
    [uuidv4()] has been called so far. *)
Record state := State {
  products : list product;
  uuid_calls : nat
}.

(** The three records [products] is initialised with. *)
Definition seed : list product :=
  [ {| id := "1"; name := "Laptop";
       description := Js.Str "High-performance laptop with 16GB RAM";
       price := 1200; category := "electronics"; inStock := true |};
    {| id := "2"; name := "Smartphone";
       description := Js.Str "Latest model with 128GB storage";
       price := 800; category := "electronics"; inStock := true |};
    {| id := "3"; name := "Coffee Maker";
       description := Js.Str "Programmable coffee maker with timer";
       price := 50; category := "kitchen"; inStock := false |} ].

Definition initial : state := {| products := seed; uuid_calls := 0 |}.

Definition ids (st : state) : list string := id <$> products st.

(** ** Requests, errors and responses *)

(** The methods the application registers routes for. *)
Inductive method := GET | POST | PUT | DELETE.

Module Query.
(** [req.query]: the parameters the list handler destructures. *)
Record t := Make {
  category : option string;
  q : option string;
  page : option string;
  limit : option string
}.
Definition empty : t :=
  {| category := None; q := None; page := None; limit := None |}.
End Query.

Record request := Request {
  meth : method;
  path : list string;
  x_api_key : option string;
  query : Query.t;
  body : list (string * Js.value)
}.

(** [AppError] and its subclasses carry a status code and are operational;
    a [TypeError] thrown by the engine has neither property; the error
    with which [bodyParser.json()] refuses a body carries a status code
    and is not operational. *)
Inductive error :=
  | AppError (message : string) (statusCode : nat)
  | TypeError (message : string)
  | HttpError (message : string) (statusCode : nat).

(** What [bodyParser.json()] makes of the body of a request: the parsed
    object it stores in [req.body], or the error it passes to [next] (400
    for text that is not JSON; the package has other refusals, each with
    its status). *)
Inductive parsed :=
  | Json (b : list (string * Js.value))
  | Unparsable (statusCode : nat) (message : string).

(** A request as it reaches the application, before any middleware. *)
Record http_request := Http {
  http_meth : method;
  http_path : list string;
  http_key : option string;
  http_query : Query.t;
  http_body : parsed
}.

Definition NotFoundError (message : string) : error := AppError message 404.
Definition ValidationError (message : string) : error := AppError message 400.

(** Entries of the object built by the stats handler: a number, or the
    string that [+ 1] produces from a non-numeric operand. *)
Inductive count :=
  | Count (n : nat)
  | Garbled (s : string).

(** What a response carries: the greeting text; the JSON bodies of the
    list, single-product and stats answers (all with [status: 'success']);
    the JSON body of the error handler; or the page Express itself sends
    when no route matches. *)
Inductive payload :=
  | Text (s : string)
  | ListBody (results : nat) (page : Z) (total : nat) (data : list product)
  | ProductBody (p : product)
  | StatsBody (countByCategory : gmap string count) (total : nat)
  | ErrorBody (status : string) (message : string)
  | NoRoute.

Record response := Response {
  code : nat;
  content : payload
}.

(** What a middleware or handler does: call [next()], call [next(err)],
    throw, or send a response.  Each carries the state it leaves behind. *)
Inductive outcome :=
  | Next (st : state)
  | NextErr (e : error) (st : state)
  | Throw (e : error) (st : state)
  | Send (r : response) (st : state).

Definition params := list (string * string).

(** [req.params[k]]. *)
Fixpoint param (k : string) (ps : params) : string :=
  match ps with
  | [] => ""
  | (k', v) :: ps' => if String.eqb k k' then v else param k ps'
  end.

Definition handler := params → request → state → outcome.

(** [asyncHandler]: a rejection of the wrapped function is forwarded to
    [next]. *)
Definition asyncHandler (fn : handler) : handler :=
  λ ps req st,
    match fn ps req st with
    | Throw e st' => NextErr e st'
    | o => o
    end.

(** ** Sample data *)

Module Sample.

(** Two identifiers as the [uuid] package prints them. *)
Definition uuidv4 (n : nat) : string :=
  match n with
  | 0 => "9b1deb4d-3b7d-4bad-9bdd-2b0d7b3dcb6d"
  | _ => "1b9d6bcd-bbfd-4b2d-9b5d-ab8dfbbd4bed"
  end.

Definition mug (d : Js.value) (x : float) : list (string * Js.value) :=
  [ ("name", Js.Str "Mug"); ("description", d); ("price", Js.Num x);
    ("category", Js.Str "kitchen"); ("inStock", Js.Bool true) ].

(** A body whose price is the string "abc". *)
Definition priced_abc : list (string * Js.value) :=
  [ ("name", Js.Str "Mug"); ("price", Js.Str "abc");
    ("category", Js.Str "kitchen"); ("inStock", Js.Bool true) ].

Definition to (m : method) (p : list string) (key : option string)
    (b : list (string * Js.value)) : request :=
  {| meth := m; path := p; x_api_key := key; query := Query.empty; body := b |}.

(** Two authorized creates. *)
Definition two_creates : list request :=
  [ to POST ["api"; "products"] (Some "secret-key") (mug (Js.Str "Blue") 4);
    to POST ["api"; "products"] (Some "secret-key") (mug Js.Null 6) ].

Definition search (c q page limit : option string) : request :=
  {| meth := GET; path := ["api"; "products"]; x_api_key := None;
     query := {| Query.category := c; Query.q := q;
                 Query.page := page; Query.limit := limit |};
     body := [] |}.

End Sample.

(** The spec's reading of the price requirement: a finite number. *)
Definition finite_number (v : Js.value) : bool :=
  match v with
  | Js.Num x => PrimFloat.is_finite x
  | _ => false
  end.

(** The number of records of category [c]. *)
Definition count_category (c : string) (l : list product) : nat :=
  length (List.filter (λ p, String.eqb (category p) c) l).

(** ** Middlewares and handlers *)

Section Service.

(** [process.env.API_KEY], and the identifiers the [uuid] package hands
    out: [uuidv4 n] is the result of the call number [n] of this run. *)
Variable env_API_KEY : option string.
Variable uuidv4 : nat → string.

(** [process.env.API_KEY || 'secret-key'] *)
Definition expected : string :=
  match env_API_KEY with
  | Some k => if String.eqb k "" then "secret-key" else k
  | None => "secret-key"
  end.

Definition requireApiKey : handler :=
  λ ps req st,
    match x_api_key req with
    | None => NextErr (AppError "Invalid or missing API key" 401) st
    | Some key =>
        if String.eqb key "" || negb (String.eqb key expected)
        then NextErr (AppError "Invalid or missing API key" 401) st
        else Next st
    end.

(** The four checks of [validateProduct], each pushing its message. *)
Definition name_errors (v : Js.value) : list string :=
  match v with
  | Js.Str s => if String.eqb (Js.trim s) "" then ["name (string) is required"] else []
  | _ => ["name (string) is required"]
  end.

Definition price_errors (v : Js.value) : list string :=
  match v with
  | Js.Num x => if PrimFloat.is_nan x then ["price (number) is required"] else []
  | _ => ["price (number) is required"]
  end.

Definition category_errors (v : Js.value) : list string :=
  match v with
  | Js.Str s => if String.eqb (Js.trim s) "" then ["category (string) is required"] else []
  | _ => ["category (string) is required"]
  end.

Definition inStock_errors (v : Js.value) : list string :=
  match v with
  | Js.Bool _ => []
  | _ => ["inStock (boolean) is required"]
  end.

Definition validation_errors (b : list (string * Js.value)) : list string :=
  name_errors (Js.get "name" b) ++ price_errors (Js.get "price" b) ++
  category_errors (Js.get "category" b) ++ inStock_errors (Js.get "inStock" b).

Definition validateProduct : handler :=
  λ ps req st,
    match validation_errors (body req) with
    | [] => Next st
    | errors => NextErr (ValidationError (Js.join "; " errors)) st
    end.

(** [const { name, description = '', price, category, inStock } = req.body]
    at the types [validateProduct] has checked; [None] when a field has
    another type, which does not happen behind [validateProduct]. *)
Definition destructure (b : list (string * Js.value))
  : option (string * Js.value * float * string * bool) :=
  match Js.get "name" b, Js.get "price" b, Js.get "category" b, Js.get "inStock" b with
  | Js.Str n, Js.Num x, Js.Str c, Js.Bool s =>
      let d := match Js.get "description" b with
               | Js.Undefined => Js.Str ""
               | v => v
               end in
      Some (n, d, x, c, s)
  | _, _, _, _ => None
  end.

(** The engine's text for calling [toLowerCase] on a value that has no such
    method (V8 prints the empty string literal with double quotes). *)
Definition not_a_function : string :=
  "(p.description || " ++ String (Ascii.ascii_of_nat 34) (String (Ascii.ascii_of_nat 34) "") ++
  ").toLowerCase is not a function".

(** [Array.prototype.filter] with a callback that may throw: the first
    exception, in index order, ends the scan. *)
Fixpoint filter_try (f : product → error + bool) (l : list product)
  : error + list product :=
  match l with
  | [] => inr []
  | p :: l' =>
      match f p with
      | inl e => inl e
      | inr keep =>
          match filter_try f l' with
          | inl e => inl e
          | inr r => inr (if keep then p :: r else r)
          end
      end
  end.

(** [Array.prototype.slice(start, end)] for integer arguments. *)
Definition slice {A} (l : list A) (start fin : Z) : list A :=
  let len := Z.of_nat (length l) in
  let k := if (start <? 0)%Z then Z.max (len + start) 0 else Z.min start len in
  let e := if (fin <? 0)%Z then Z.max (len + fin) 0 else Z.min fin len in
  take (Z.to_nat (e - k)) (drop (Z.to_nat k) l).

(** The category filter, applied when [category] is a non-empty string. *)
Definition by_category (c : option string) (l : list product) : list product :=
  match c with
  | Some c =>
      if String.eqb c "" then l
      else
        let cat := Js.toLowerCase c in
        List.filter (λ p, String.eqb (Js.toLowerCase (category p)) cat) l
  | None => l
  end.

(** The callback of the text filter:
    [p.name.toLowerCase().includes(term) ||
     (p.description || '').toLowerCase().includes(term)]. *)
Definition matches_term (term : string) (p : product) : error + bool :=
  if Js.includes (Js.toLowerCase (name p)) term then inr true
  else
    match (if Js.truthy (description p) then description p else Js.Str "") with
    | Js.Str d => inr (Js.includes (Js.toLowerCase d) term)
    | _ => inl (TypeError not_a_function)
    end.

Definition by_term (q : option string) (l : list product) : error + list product :=
  match q with
  | Some q =>
      if String.eqb q "" then inr l
      else filter_try (matches_term (Js.toLowerCase q)) l
  | None => inr l
  end.

(** [parseInt(v, 10)] of a query parameter destructured with default [d]
    (the default is a number, which [parseInt] reads back unchanged). *)
Definition parse_param (v : option string) (d : Z) : option Z :=
  match v with
  | Some s => Js.parseInt s
  | None => Some d
  end.

(** [n || d] for a number: [NaN] and [0] are falsy. *)
Definition or_else (n : option Z) (d : Z) : Z :=
  match n with
  | Some 0%Z | None => d
  | Some n => n
  end.

Definition effective_page (qu : Query.t) : Z :=
  Z.max 1 (or_else (parse_param (Query.page qu) 1) 1).

Definition effective_limit (qu : Query.t) : Z :=
  Z.max 1 (or_else (parse_param (Query.limit qu) 10) 10).

(** GET /api/products *)
Definition list_products : handler :=
  λ ps req st,
    let results := by_category (Query.category (query req)) (products st) in
    match by_term (Query.q (query req)) results with
    | inl e => Throw e st
    | inr results =>
        let p := effective_page (query req) in
        let l := effective_limit (query req) in
        let start := ((p - 1) * l)%Z in
        let paged := slice results start (start + l) in
        Send {| code := 200;
                content := ListBody (length paged) p (length results) paged |} st
    end.

(** [products.find(p => p.id === i)] and [products.findIndex(...)] are the
    two components of [list_find]. *)
Definition find_id (i : string) (l : list product) : option (nat * product) :=
  list_find (λ p, id p = i) l.

(** GET /api/products/:id *)
Definition get_product : handler :=
  λ ps req st,
    match find_id (param "id" ps) (products st) with
    | None => NextErr (NotFoundError "Product not found") st
    | Some (_, product) =>
        Send {| code := 200; content := ProductBody product |} st
    end.

(** POST /api/products *)
Definition create_product : handler :=
  λ ps req st,
    match destructure (body req) with
    | Some (name, description, price, category, inStock) =>
        let newProduct :=
          {| id := uuidv4 (uuid_calls st); name := name;
             description := description; price := price;
             category := category; inStock := inStock |} in
        Send {| code := 201; content := ProductBody newProduct |}
             {| products := products st ++ [newProduct];
                uuid_calls := S (uuid_calls st) |}
    | None => Throw (TypeError "unvalidated body") st
    end.

(** PUT /api/products/:id.  The spread [...products[idx]] contributes the
    six fields of the old record, of which the five named after it are
    overwritten: only [id] is kept. *)
Definition update_product : handler :=
  λ ps req st,
    match find_id (param "id" ps) (products st) with
    | None => NextErr (NotFoundError "Product not found") st
    | Some (idx, old) =>
        match destructure (body req) with
        | Some (name, description, price, category, inStock) =>
            let updated :=
              {| id := id old; name := name; description := description;
                 price := price; category := category; inStock := inStock |} in
            Send {| code := 200; content := ProductBody updated |}
                 {| products := <[idx := updated]> (products st);
                    uuid_calls := uuid_calls st |}
        | None => Throw (TypeError "unvalidated body") st
        end
    end.

(** DELETE /api/products/:id: [splice(idx, 1)] removes the element at
    [idx] and returns it. *)
Definition delete_product : handler :=
  λ ps req st,
    match find_id (param "id" ps) (products st) with
    | None => NextErr (NotFoundError "Product not found") st
    | Some (idx, removed) =>
        Send {| code := 200; content := ProductBody removed |}
             {| products := delete idx (products st);
                uuid_calls := uuid_calls st |}
    end.

(** The accumulator of the stats handler is a plain object [{}], so a read
    [acc[k]] of a key it does not own falls through to [Object.prototype]:
    its methods read as functions, whose source text [+ 1] extends, and
    [__proto__] reads as the prototype object and ignores the write of a
    string. *)
Definition Object_prototype_methods : list (string * string) :=
  [ ("constructor", "function Object() { [native code] }");
    ("__defineGetter__", "function __defineGetter__() { [native code] }");
    ("__defineSetter__", "function __defineSetter__() { [native code] }");
    ("hasOwnProperty", "function hasOwnProperty() { [native code] }");
    ("__lookupGetter__", "function __lookupGetter__() { [native code] }");
    ("__lookupSetter__", "function __lookupSetter__() { [native code] }");
    ("isPrototypeOf", "function isPrototypeOf() { [native code] }");
    ("propertyIsEnumerable", "function propertyIsEnumerable() { [native code] }");
    ("toString", "function toString() { [native code] }");
    ("valueOf", "function valueOf() { [native code] }");
    ("toLocaleString", "function toLocaleString() { [native code] }") ].

Fixpoint inherited (k : string) (l : list (string * string)) : option string :=
  match l with
  | [] => None
  | (k', src) :: l' => if String.eqb k k' then Some src else inherited k l'
  end.

(** [acc[k] = (acc[k] || 0) + 1] *)
Definition bump (acc : gmap string count) (k : string) : gmap string count :=
  match acc !! k with
  | Some (Count n) => <[k := Count (n + 1)]> acc
  | Some (Garbled s) =>
      <[k := if String.eqb s "" then Count 1 else Garbled (s ++ "1")]> acc
  | None =>
      if String.eqb k "__proto__" then acc
      else
        match inherited k Object_prototype_methods with
        | Some src => <[k := Garbled (src ++ "1")]> acc
        | None => <[k := Count 1]> acc
        end
  end.

(** GET /api/products/stats *)
Definition product_stats : handler :=
  λ ps req st,
    let stats := fold_left (λ acc p, bump acc (category p)) (products st) ∅ in
    Send {| code := 200;
            content := StatsBody stats (length (products st)) |} st.

(** GET / *)
Definition root : handler :=
  λ ps req st,
    Send {| code := 200;
            content := Text "Hello World — Product API. Use /api/products" |} st.

(** The terminal error-handling middleware. *)
Definition error_handler (err : error) : response :=
  match err with
  | AppError message statusCode =>
      {| code := if (statusCode =? 0)%nat then 500 else statusCode;
         content := ErrorBody "fail"
           (if String.eqb message "" then "Internal Server Error" else message) |}
  | TypeError message =>
      {| code := 500;
         content := ErrorBody "error"
           (if String.eqb message "" then "Internal Server Error" else message) |}
  | HttpError message statusCode =>
      {| code := if (statusCode =? 0)%nat then 500 else statusCode;
         content := ErrorBody "error"
           (if String.eqb message "" then "Internal Server Error" else message) |}
  end.

(** ** The router *)

(** A route path is a sequence of literal segments and named parameters. *)
Inductive segment :=
  | Lit (s : string)
  | Param (k : string).

Record route := Route {
  route_method : method;
  route_path : list segment;
  route_stack : list handler
}.

Definition method_eqb (a b : method) : bool :=
  match a, b with
  | GET, GET | POST, POST | PUT, PUT | DELETE, DELETE => true
  | _, _ => false
  end.

(** Matching of a request path against a route path: literal segments
    compare without regard to case (Express's default), a parameter takes
    the segment as it is. *)
Fixpoint match_path (pat : list segment) (p : list string) : option params :=
  match pat, p with
  | [], [] => Some []
  | Lit s :: pat', x :: p' =>
      if String.eqb (Js.toLowerCase x) (Js.toLowerCase s)
      then match_path pat' p' else None
  | Param k :: pat', x :: p' =>
      (λ ps, (k, x) :: ps) <$> match_path pat' p'
  | _, _ => None
  end.

(** The routes in the order the application registers them. *)
Definition routes : list route :=
  [ Route GET [] [root];
    Route GET [Lit "api"; Lit "products"] [asyncHandler list_products];
    Route GET [Lit "api"; Lit "products"; Param "id"] [asyncHandler get_product];
    Route POST [Lit "api"; Lit "products"]
      [requireApiKey; validateProduct; asyncHandler create_product];
    Route PUT [Lit "api"; Lit "products"; Param "id"]
      [requireApiKey; validateProduct; asyncHandler update_product];
    Route DELETE [Lit "api"; Lit "products"; Param "id"]
      [requireApiKey; asyncHandler delete_product];
    Route GET [Lit "api"; Lit "products"; Lit "stats"] [asyncHandler product_stats] ].

(** The handlers of one route run in order while they call [next()]. *)
Fixpoint run_stack (hs : list handler) (ps : params) (req : request) (st : state)
  : outcome :=
  match hs with
  | [] => Next st
  | h :: hs' =>
      match h ps req st with
      | Next st' => run_stack hs' ps req st'
      | o => o
      end
  end.

(** The router tries the routes in order.  A route whose method and path
    match runs its stack; an error goes to [error_handler], a response
    ends the request, and [next()] from the last handler resumes the
    search.  When no route is left Express answers 404 itself. *)
Fixpoint dispatch (rs : list route) (req : request) (st : state)
  : response * state :=
  match rs with
  | [] => ({| code := 404; content := NoRoute |}, st)
  | r :: rs' =>
      if method_eqb (meth req) (route_method r) then
        match match_path (route_path r) (path req) with
        | Some ps =>
            match run_stack (route_stack r) ps req st with
            | Next st' => dispatch rs' req st'
            | NextErr e st' | Throw e st' => (error_handler e, st')
            | Send res st' => (res, st')
            end
        | None => dispatch rs' req st
        end
      else dispatch rs' req st
  end.

Definition handle (st : state) (req : request) : response * state :=
  dispatch routes req st.

(** [app.use(bodyParser.json())] comes first in the application: a body
    it refuses goes to the error handler before any route is tried; a body
    it accepts is what the routes see as [req.body]. *)
Definition bodyParser_json (r : http_request) : error + request :=
  match http_body r with
  | Json b =>
      inr {| meth := http_meth r; path := http_path r;
             x_api_key := http_key r; query := http_query r; body := b |}
  | Unparsable statusCode message => inl (HttpError message statusCode)
  end.

Definition serve (st : state) (r : http_request) : response * state :=
  match bodyParser_json r with
  | inl e => (error_handler e, st)
  | inr req => handle st req
  end.

(** The state after a sequence of requests, and the responses given. *)
Definition run (st : state) (reqs : list request) : state :=
  fold_left (λ st req, snd (handle st req)) reqs st.


(** ** Notions used in the statements *)

(** The text the filter reads from a description: the description itself
    when it is a string, the empty string when it is falsy, and nothing
    when it is another value. *)
Definition description_text (p : product) : option string :=
  match (if Js.truthy (description p) then description p else Js.Str "") with
  | Js.Str d => Some d
  | _ => None
  end.

(** Case-insensitive exact match of the category. *)
Definition category_match (c : string) (p : product) : bool :=
  String.eqb (Js.toLowerCase (category p)) (Js.toLowerCase c).

(** Case-insensitive substring match against name or description. *)
Definition text_match (q : string) (p : product) : bool :=
  Js.includes (Js.toLowerCase (name p)) (Js.toLowerCase q) ||
  Js.includes (Js.toLowerCase (default "" (description_text p))) (Js.toLowerCase q).

(** A filter that an absent or empty parameter switches off. *)
Definition filter_when {A} (f : string → A → bool) (v : option string)
    (l : list A) : list A :=
  match v with
  | Some s => if String.eqb s "" then l else List.filter (f s) l
  | None => l
  end.

(** A category that is no property of [Object.prototype]. *)
Definition ordinary_key (c : string) : bool :=
  negb (String.eqb c "__proto__") &&
  match inherited c Object_prototype_methods with
  | Some _ => false
  | None => true
  end.

(** The number an accumulator holds for a category. *)
Definition held (acc : gmap string count) (c : string) : nat :=
  match acc !! c with
  | Some (Count n) => n
  | _ => 0
  end.


(** Every request either leaves the state as it is, or appends one record
    whose id is the next identifier of the generator (201), or puts a
    record with the same id in the place of a stored one (200), or takes
    one stored record out (200). *)
Inductive step (st : state) : response * state → Prop :=
  | step_same (res : response) :
      code res = 200 ∨ (400 ≤ code res)%nat →
      step st (res, st)
  | step_create (p : product) :
      id p = uuidv4 (uuid_calls st) →
      step st ({| code := 201; content := ProductBody p |},
               {| products := (products st ++ [p])%list;
                  uuid_calls := S (uuid_calls st) |})
  | step_update (l1 l2 : list product) (old new : product) :
      products st = (l1 ++ old :: l2)%list →
      id new = id old →
      step st ({| code := 200; content := ProductBody new |},
               {| products := (l1 ++ new :: l2)%list;
                  uuid_calls := uuid_calls st |})
  | step_delete (l1 l2 : list product) (removed : product) :
      products st = (l1 ++ removed :: l2)%list →
      step st ({| code := 200; content := ProductBody removed |},
               {| products := (l1 ++ l2)%list;
                  uuid_calls := uuid_calls st |}).




(** A string of ASCII characters (code units below 128).  On these the
    string helpers of [Js] are the ECMAScript ones. *)
Fixpoint ascii_only (s : string) : bool :=
  match s with
  | EmptyString => true
  | String c s' => (Ascii.nat_of_ascii c <? 128)%nat && ascii_only s'
  end.

Definition ascii_opt (v : option string) : bool :=
  match v with
  | Some s => ascii_only s
  | None => true
  end.

(** A body whose name and category, when they are strings, are ASCII. *)
Definition ascii_fields (b : list (string * Js.value)) : Prop :=
  ∀ s, Js.get "name" b = Js.Str s ∨ Js.get "category" b = Js.Str s →
       ascii_only s = true.

(** A record whose name, category and description, when a string, are
    ASCII. *)
Definition ascii_record (p : product) : Prop :=
  ascii_only (name p) = true ∧ ascii_only (category p) = true ∧
  ∀ d, description p = Js.Str d → ascii_only d = true.

(** A [page] or [limit] parameter on which the integers of the embedding
    are the numbers of the code: ASCII text whose leading integer, if any,
    is at most 2^26 in magnitude, so that page, limit and offset are
    doubles without rounding. *)
Definition exact_param (v : option string) : bool :=
  match v with
  | Some s =>
      ascii_only s &&
      match Js.parseInt s with
      | Some n => (Z.abs n <=? 67108864)%Z
      | None => true
      end
  | None => true
  end.

(** A string made of white space only (the strings [trim] empties). *)
Fixpoint blank (s : string) : bool :=
  match s with
  | EmptyString => true
  | String c s' => Js.is_white c && blank s'
  end.

(** The four conditions [validateProduct] imposes on a body. *)
Definition name_ok (b : list (string * Js.value)) : Prop :=
  ∃ n, Js.get "name" b = Js.Str n ∧ blank n = false.

Definition price_ok (b : list (string * Js.value)) : Prop :=
  ∃ x, Js.get "price" b = Js.Num x ∧ PrimFloat.is_nan x = false.

Definition category_ok (b : list (string * Js.value)) : Prop :=
  ∃ c, Js.get "category" b = Js.Str c ∧ blank c = false.

Definition inStock_ok (b : list (string * Js.value)) : Prop :=
  ∃ s, Js.get "inStock" b = Js.Bool s.

(** A record on which the text filter throws: its name does not contain
    the term and its description has no text. *)
Definition breaks_filter (q : string) (p : product) : bool :=
  negb (Js.includes (Js.toLowerCase (name p)) (Js.toLowerCase q)) &&
  match description_text p with
  | Some _ => false
  | None => true
  end.

(** What [validateProduct] guarantees of a record it has let through. *)
Definition valid_record (p : product) : Prop :=
  blank (name p) = false ∧ blank (category p) = false ∧
  PrimFloat.is_nan (price p) = false.

(** * Properties *)

Local Open Scope nat_scope.

(** *** Strings *)

Lemma prefix_app (t s : string) : String.prefix t (t ++ s) = true.
Proof.
  induction t as [|c t IH]; simpl; [by destruct s|].
  by destruct (ascii_dec c c).
Qed.

Lemma includes_here (t s : string) : Js.includes (t ++ s) t = true.
Proof.
  destruct t as [|c t]; simpl.
  - by destruct s.
  - destruct (ascii_dec c c); [|done]. by rewrite prefix_app.
Qed.

Lemma includes_self (t : string) : Js.includes t t = true.
Proof.
  destruct t as [|c t]; simpl; [done|].
  destruct (ascii_dec c c); [|done].
  enough (String.prefix t t = true) as -> by done.
  clear. induction t as [|c t IH]; simpl; [done|]. by destruct (ascii_dec c c).
Qed.

Lemma includes_app_l (a s t : string) :
  Js.includes s t = true → Js.includes (a ++ s) t = true.
Proof.
  intros H. induction a as [|c a IH]; simpl; [done|].
  rewrite IH. apply orb_true_r.
Qed.

Lemma includes_join (sep x : string) (l : list string) :
  x ∈ l → Js.includes (Js.join sep l) x = true.
Proof.
  induction l as [|y l IH]; [by intros ?%elem_of_nil|].
  intros [->|Hin]%elem_of_cons.
  - destruct l; simpl.
    + apply includes_self.
    + apply includes_here.
  - destruct l as [|z l]; [by apply elem_of_nil in Hin|].
    change (Js.join sep (y :: z :: l)) with (y ++ sep ++ Js.join sep (z :: l)).
    by apply includes_app_l, includes_app_l, IH.
Qed.

(** *** The API key *)

Lemma expected_nonempty : String.eqb expected "" = false.
Proof.
  unfold expected. destruct env_API_KEY as [k|]; [|done].
  destruct (String.eqb k "") eqn:E; done.
Qed.

Lemma requireApiKey_ok ps req st :
  x_api_key req = Some expected → requireApiKey ps req st = Next st.
Proof.
  intros H. unfold requireApiKey. rewrite H, expected_nonempty, String.eqb_refl. done.
Qed.

Lemma requireApiKey_reject ps req st :
  x_api_key req ≠ Some expected →
  requireApiKey ps req st =
    NextErr (AppError "Invalid or missing API key" 401) st.
Proof.
  intros H. unfold requireApiKey. destruct (x_api_key req) as [key|]; [|done].
  destruct (String.eqb key "") eqn:E1; [done|].
  destruct (String.eqb key expected) eqn:E2; [|done].
  apply String.eqb_eq in E2. congruence.
Qed.

(** *** Looking a record up by its id *)

Lemma find_id_None (i : string) (l : list product) :
  find_id i l = None ↔ i ∉ id <$> l.
Proof.
  unfold find_id. rewrite list_find_None, list_elem_of_fmap, Forall_forall.
  split.
  - intros H (p & -> & Hp). by apply (H p).
  - intros H p Hp Hid. apply H. by exists p.
Qed.

Lemma find_id_Some (i : string) (l : list product) (idx : nat) (p : product) :
  find_id i l = Some (idx, p) →
  ∃ l1 l2, l = (l1 ++ p :: l2)%list ∧ length l1 = idx ∧ id p = i ∧ i ∉ id <$> l1.
Proof.
  unfold find_id. intros (Hidx & Hp & Hbefore)%list_find_Some.
  exists (take idx l), (drop (S idx) l). split_and!.
  - by rewrite take_drop_middle.
  - apply length_take_le. apply lookup_lt_Some in Hidx. lia.
  - done.
  - intros (y & Hy & Hin)%list_elem_of_fmap.
    apply list_elem_of_lookup in Hin as [j Hj].
    pose proof (lookup_lt_Some _ _ _ Hj) as Hlt. rewrite length_take in Hlt.
    rewrite lookup_take_lt in Hj by lia.
    apply (Hbefore j y); [done | lia | done].
Qed.

Lemma find_id_is_Some (i : string) (l : list product) :
  i ∈ id <$> l → ∃ idx p, find_id i l = Some (idx, p).
Proof.
  intros Hin. destruct (find_id i l) as [[idx p]|] eqn:E; [by eauto|].
  by apply find_id_None in E.
Qed.

Lemma insert_middle {A} (l1 l2 : list A) (x y : A) :
  <[length l1 := y]> (l1 ++ x :: l2)%list = (l1 ++ y :: l2)%list.
Proof. rewrite insert_app_r_alt by lia. by rewrite Nat.sub_diag. Qed.

Lemma delete_middle {A} (l1 l2 : list A) (x : A) :
  delete (length l1) (l1 ++ x :: l2)%list = (l1 ++ l2)%list.
Proof. induction l1 as [|a l1 IH]; simpl; [done|]. by f_equal. Qed.

(** *** Validation *)

(** Behind [validateProduct] the four checked fields have their type, so
    [destructure] succeeds and returns the submitted values. *)
Lemma validateProduct_typed (b : list (string * Js.value)) :
  validation_errors b = [] →
  ∃ n x c s,
    Js.get "name" b = Js.Str n ∧ Js.get "price" b = Js.Num x ∧
    Js.get "category" b = Js.Str c ∧ Js.get "inStock" b = Js.Bool s ∧
    destructure b =
      Some (n, match Js.get "description" b with
               | Js.Undefined => Js.Str ""
               | v => v
               end, x, c, s).
Proof.
  unfold validation_errors, destructure.
  intros (Hn & (Hp & (Hc & Hs)%app_eq_nil)%app_eq_nil)%app_eq_nil.
  destruct (Js.get "name" b) as [| | | |n| |]; try discriminate Hn.
  destruct (Js.get "price" b) as [| | |x| | |]; try discriminate Hp.
  destruct (Js.get "category" b) as [| | | |c| |]; try discriminate Hc.
  destruct (Js.get "inStock" b) as [| |s| | | |]; try discriminate Hs.
  by exists n, x, c, s.
Qed.

Lemma validateProduct_ok ps req st :
  validation_errors (body req) = [] → validateProduct ps req st = Next st.
Proof. intros H. unfold validateProduct. by rewrite H. Qed.

Lemma validateProduct_reject ps req st :
  validation_errors (body req) ≠ [] →
  validateProduct ps req st =
    NextErr (ValidationError (Js.join "; " (validation_errors (body req)))) st.
Proof. intros H. unfold validateProduct. by destruct (validation_errors (body req)). Qed.

(** *** Reasoning route by route *)

(** A property [Q] of the answer holds for [dispatch] when it holds for
    the built-in 404 and for what each matching route's stack produces,
    provided a stack that falls through leaves the state alone. *)
Lemma dispatch_spec (Q : response * state → Prop) (rs : list route)
    (req : request) (st : state) :
  Q ({| code := 404; content := NoRoute |}, st) →
  Forall (λ r, ∀ ps,
    meth req = route_method r →
    match_path (route_path r) (path req) = Some ps →
    match run_stack (route_stack r) ps req st with
    | Next st' => st' = st
    | NextErr e st' | Throw e st' => Q (error_handler e, st')
    | Send res st' => Q (res, st')
    end) rs →
  Q (dispatch rs req st).
Proof.
  intros Hnone. induction 1 as [|r rs Hr _ IH]; simpl; [done|].
  destruct (method_eqb (meth req) (route_method r)) eqn:Em; [|done].
  destruct (match_path (route_path r) (path req)) as [ps|] eqn:Ep; [|done].
  assert (meth req = route_method r) as Hm
    by (by destruct (meth req), (route_method r)).
  specialize (Hr ps Hm eq_refl).
  destruct (run_stack (route_stack r) ps req st); by subst.
Qed.

(** What the routes of the three path shapes compute. *)
Lemma handle_get_id st i key qu b :
  handle st (Request GET ["api"; "products"; i] key qu b) =
  match find_id i (products st) with
  | None => (error_handler (NotFoundError "Product not found"), st)
  | Some (_, p) => ({| code := 200; content := ProductBody p |}, st)
  end.
Proof.
  unfold handle, routes. simpl. unfold asyncHandler, get_product. simpl.
  by destruct (find_id i (products st)) as [[? ?]|].
Qed.

Lemma handle_list st key qu b :
  handle st (Request GET ["api"; "products"] key qu b) =
  match by_term (Query.q qu) (by_category (Query.category qu) (products st)) with
  | inl e => (error_handler e, st)
  | inr results =>
      let p := effective_page qu in
      let l := effective_limit qu in
      let paged := slice results ((p - 1) * l) ((p - 1) * l + l) in
      ({| code := 200;
          content := ListBody (length paged) p (length results) paged |}, st)
  end.
Proof.
  unfold handle, routes. simpl. unfold asyncHandler, list_products. simpl.
  by destruct (by_term _ _).
Qed.

Lemma handle_post st key qu b :
  handle st (Request POST ["api"; "products"] key qu b) =
  if decide (key = Some expected) then
    match validation_errors b with
    | [] =>
        match destructure b with
        | Some (n, d, x, c, s) =>
            let newProduct := Product (uuidv4 (uuid_calls st)) n d x c s in
            ({| code := 201; content := ProductBody newProduct |},
             {| products := products st ++ [newProduct];
                uuid_calls := S (uuid_calls st) |})
        | None => (error_handler (TypeError "unvalidated body"), st)
        end
    | errors => (error_handler (ValidationError (Js.join "; " errors)), st)
    end
  else (error_handler (AppError "Invalid or missing API key" 401), st).
Proof.
  unfold handle, routes. simpl.
  case_decide as Hk.
  - rewrite requireApiKey_ok by done.
    unfold validateProduct. simpl body.
    destruct (validation_errors b) eqn:Ev; [|done].
    unfold asyncHandler, create_product. simpl body.
    by destruct (destructure b) as [[[[[n d] x] c] s]|].
  - by rewrite requireApiKey_reject.
Qed.

Lemma handle_put st i key qu b :
  handle st (Request PUT ["api"; "products"; i] key qu b) =
  if decide (key = Some expected) then
    match validation_errors b with
    | [] =>
        match find_id i (products st) with
        | None => (error_handler (NotFoundError "Product not found"), st)
        | Some (idx, old) =>
            match destructure b with
            | Some (n, d, x, c, s) =>
                let updated := Product (id old) n d x c s in
                ({| code := 200; content := ProductBody updated |},
                 {| products := <[idx := updated]> (products st);
                    uuid_calls := uuid_calls st |})
            | None => (error_handler (TypeError "unvalidated body"), st)
            end
        end
    | errors => (error_handler (ValidationError (Js.join "; " errors)), st)
    end
  else (error_handler (AppError "Invalid or missing API key" 401), st).
Proof.
  unfold handle, routes. simpl.
  case_decide as Hk.
  - rewrite requireApiKey_ok by done.
    unfold validateProduct. simpl body.
    destruct (validation_errors b) eqn:Ev; [|done].
    unfold asyncHandler, update_product. simpl.
    destruct (find_id i (products st)) as [[idx old]|]; [|done].
    by destruct (destructure b) as [[[[[n d] x] c] s]|].
  - by rewrite requireApiKey_reject.
Qed.

Lemma handle_delete st i key qu b :
  handle st (Request DELETE ["api"; "products"; i] key qu b) =
  if decide (key = Some expected) then
    match find_id i (products st) with
    | None => (error_handler (NotFoundError "Product not found"), st)
    | Some (idx, removed) =>
        ({| code := 200; content := ProductBody removed |},
         {| products := delete idx (products st);
            uuid_calls := uuid_calls st |})
    end
  else (error_handler (AppError "Invalid or missing API key" 401), st).
Proof.
  unfold handle, routes. simpl.
  case_decide as Hk.
  - rewrite requireApiKey_ok by done.
    unfold asyncHandler, delete_product. simpl.
    by destruct (find_id i (products st)) as [[idx old]|].
  - by rewrite requireApiKey_reject.
Qed.

(** *** Claims *)

(** C6: for an id that no record of the collection carries, GET on that id,
    PUT on it with the right key and a valid body, and DELETE on it with
    the right key are each answered 404 "Product not found", and the
    collection is left as it was. *)
Theorem missing_id_not_found (st : state) (i : string) (qu : Query.t)
    (key : option string) (b : list (string * Js.value)) :
  i ∉ ids st →
  let not_found :=
    ({| code := 404; content := ErrorBody "fail" "Product not found" |}, st) in
  handle st (Request GET ["api"; "products"; i] key qu b) = not_found ∧
  (validation_errors b = [] →
   handle st (Request PUT ["api"; "products"; i] (Some expected) qu b) = not_found) ∧
  handle st (Request DELETE ["api"; "products"; i] (Some expected) qu b) = not_found.
Proof.
  intros Hi%find_id_None not_found. split_and!.
  - by rewrite handle_get_id, Hi.
  - intros Hb. rewrite handle_put, decide_True, Hb, Hi; done.
  - rewrite handle_delete, decide_True, Hi; done.
Qed.

(** C7: a POST to /api/products whose body [bodyParser.json()] accepts and
    whose x-api-key header is absent or is not the configured secret is
    answered 401 "Invalid or missing API key", whatever that body holds
    (valid for [validateProduct] or not), so never with a validation
    error; the state is left as it was. *)
Theorem post_without_key_unauthorized (st : state) (key : option string)
    (qu : Query.t) (b : list (string * Js.value)) :
  key ≠ Some expected →
  serve st (Http POST ["api"; "products"] key qu (Json b)) =
    ({| code := 401; content := ErrorBody "fail" "Invalid or missing API key" |}, st).
Proof.
  intros Hk. unfold serve, bodyParser_json. simpl.
  by rewrite handle_post, decide_False.
Qed.

(** C4: a PUT with the right key and a valid body on the id of a stored
    record answers 200 with the new record and puts it in the place of the
    old one.  The new record keeps the old id; its name, price, category
    and inStock are the submitted ones and its description is the
    submitted one, or the empty string when the body has none: no other
    field of the old record survives.  The records before and after it
    are untouched. *)
Theorem put_replaces_fields (st : state) (i : string) (qu : Query.t)
    (b : list (string * Js.value)) :
  validation_errors b = [] →
  i ∈ ids st →
  ∃ (l1 l2 : list product) (old new : product),
    products st = (l1 ++ old :: l2)%list ∧ id old = i ∧ (i ∉ id <$> l1) ∧
    handle st (Request PUT ["api"; "products"; i] (Some expected) qu b) =
      ({| code := 200; content := ProductBody new |},
       {| products := (l1 ++ new :: l2)%list; uuid_calls := uuid_calls st |}) ∧
    id new = id old ∧
    Js.Str (name new) = Js.get "name" b ∧
    Js.Num (price new) = Js.get "price" b ∧
    Js.Str (category new) = Js.get "category" b ∧
    Js.Bool (inStock new) = Js.get "inStock" b ∧
    description new = (match Js.get "description" b with
                       | Js.Undefined => Js.Str ""
                       | v => v
                       end).
Proof.
  intros Hb Hi.
  destruct (find_id_is_Some _ _ Hi) as (idx & old & Hfind).
  destruct (find_id_Some _ _ _ _ Hfind) as (l1 & l2 & Hl & Hlen & Hid & Hl1).
  destruct (validateProduct_typed _ Hb) as (n & x & c & s & Hn & Hx & Hc & Hs & Hd).
  exists l1, l2, old, (Product (id old) n (match Js.get "description" b with
                                           | Js.Undefined => Js.Str ""
                                           | v => v
                                           end) x c s).
  split_and!; try done.
  rewrite handle_put, decide_True, Hb, Hfind, Hd by done.
  simpl. do 2 f_equal. rewrite Hl, <- Hlen. apply insert_middle.
Qed.

(** *** The transitions of the service *)


(** The text filter throws nothing but the [TypeError] of a description
    without [toLowerCase]. *)
Lemma filter_try_error (term : string) (l : list product) (e : error) :
  filter_try (matches_term term) l = inl e → e = TypeError not_a_function.
Proof.
  induction l as [|p l IH]; simpl; [done|].
  destruct (matches_term term p) as [e'|keep] eqn:Ep.
  - intros [= <-]. unfold matches_term in Ep.
    destruct (Js.includes _ _); [done|].
    by destruct (if Js.truthy _ then _ else _); simplify_eq.
  - destruct (filter_try _ l); [|done]. intros [= <-]. by apply IH.
Qed.

Lemma by_term_error (q : option string) (l : list product) (e : error) :
  by_term q l = inl e → e = TypeError not_a_function.
Proof.
  unfold by_term. destruct q as [q|]; [|done].
  destruct (String.eqb q ""); [done|]. apply filter_try_error.
Qed.

Ltac unchanged := apply step_same; simpl; solve [by left | right; lia].

Ltac through_gates req :=
  unfold requireApiKey, validateProduct;
  destruct (x_api_key req) as [?key|]; [|unchanged];
  destruct (String.eqb _ "" || _); [unchanged|];
  try (destruct (validation_errors (body req)); [|unchanged]).

Lemma handle_step (st : state) (req : request) : step st (handle st req).
Proof.
  unfold handle. apply dispatch_spec; [unchanged|].
  unfold routes. repeat apply Forall_cons_2; [..|apply Forall_nil_2];
    intros ps Hm Hp; simpl route_stack; simpl run_stack.
  - unchanged.
  - unfold asyncHandler, list_products.
    destruct (by_term _ _) as [e|l] eqn:E; [|unchanged].
    apply by_term_error in E as ->. unchanged.
  - unfold asyncHandler, get_product.
    destruct (find_id _ _) as [[? ?]|]; unchanged.
  - through_gates req. unfold asyncHandler, create_product.
    destruct (destructure _) as [[[[[n d] x] c] s]|]; [|unchanged].
    by apply step_create.
  - through_gates req. unfold asyncHandler, update_product.
    destruct (find_id _ _) as [[idx old]|] eqn:Hfind; [|unchanged].
    destruct (destructure _) as [[[[[n d] x] c] s]|]; [|unchanged].
    destruct (find_id_Some _ _ _ _ Hfind) as (l1 & l2 & Hl & Hlen & Hid & Hl1).
    rewrite Hl at 1. rewrite <- Hlen, insert_middle.
    by eapply step_update.
  - through_gates req. unfold asyncHandler, delete_product.
    destruct (find_id _ _) as [[idx old]|] eqn:Hfind; [|unchanged].
    destruct (find_id_Some _ _ _ _ Hfind) as (l1 & l2 & Hl & Hlen & Hid & Hl1).
    rewrite Hl at 1. rewrite <- Hlen, delete_middle.
    by eapply step_delete.
  - unchanged.
Qed.

(** The fallback of [create_product] and [update_product] for a body that
    [destructure] cannot type is dead code behind [validateProduct]: no
    request is ever answered from it. *)
Lemma unvalidated_body_unreachable (st : state) (req : request) :
  content (fst (handle st req)) ≠ ErrorBody "error" "unvalidated body".
Proof.
  unfold handle.
  apply (dispatch_spec
           (λ rs, content (fst rs) ≠ ErrorBody "error" "unvalidated body")); [done|].
  unfold routes. repeat apply Forall_cons_2; [..|apply Forall_nil_2];
    intros ps Hm Hp; simpl route_stack; simpl run_stack.
  - done.
  - unfold asyncHandler, list_products.
    destruct (by_term _ _) as [e|l] eqn:E; [|done].
    by apply by_term_error in E as ->.
  - unfold asyncHandler, get_product.
    by destruct (find_id _ _) as [[? ?]|].
  - unfold requireApiKey, validateProduct.
    destruct (x_api_key req) as [key|]; [|done].
    destruct (String.eqb _ "" || _); [done|].
    destruct (validation_errors (body req)) eqn:Ev.
    + destruct (validateProduct_typed _ Ev) as (n & x & c & s & _ & _ & _ & _ & Hd).
      unfold asyncHandler, create_product. by rewrite Hd.
    + simpl. by destruct (String.eqb _ "").
  - unfold requireApiKey, validateProduct.
    destruct (x_api_key req) as [key|]; [|done].
    destruct (String.eqb _ "" || _); [done|].
    destruct (validation_errors (body req)) eqn:Ev.
    + destruct (validateProduct_typed _ Ev) as (n & x & c & s & _ & _ & _ & _ & Hd).
      unfold asyncHandler, update_product. rewrite Hd.
      by destruct (find_id _ _) as [[? ?]|].
    + simpl. by destruct (String.eqb _ "").
  - unfold requireApiKey.
    destruct (x_api_key req) as [key|]; [|done].
    destruct (String.eqb _ "" || _); [done|].
    unfold asyncHandler, delete_product.
    by destruct (find_id _ _) as [[? ?]|].
  - done.
Qed.

(** C10: a request answered 401, 400 or 404 leaves the state, and with it
    the product collection, exactly as it was. *)
Theorem error_response_keeps_collection (st : state) (req : request) :
  code (fst (handle st req)) = 401 ∨ code (fst (handle st req)) = 400 ∨
  code (fst (handle st req)) = 404 →
  snd (handle st req) = st ∧ products (snd (handle st req)) = products st.
Proof.
  intros Hcode. enough (snd (handle st req) = st) as -> by done.
  destruct (handle_step st req); simpl in *; [done|lia..].
Qed.

(** *** Distinct ids *)


Section Generator.

(** The first [N] identifiers have the 36 characters of a UUID and are
    pairwise distinct. *)
Variable N : nat.
Hypothesis uuid_length : ∀ k, k < N → String.length (uuidv4 k) = 36.
Hypothesis uuid_distinct : ∀ j k, j < k < N → uuidv4 j ≠ uuidv4 k.




End Generator.

Lemma run_app (st : state) (pre post : list request) :
  run st (pre ++ post)%list = run (run st pre) post.
Proof. apply fold_left_app. Qed.


(** *** The list handler *)

Lemma slice_window {A} (l : list A) (start n : Z) :
  (0 ≤ start)%Z → (0 ≤ n)%Z →
  slice l start (start + n) = take (Z.to_nat n) (drop (Z.to_nat start) l).
Proof.
  intros Hs Hn. unfold slice.
  destruct (Z.ltb_spec start 0) as [?|_]; [lia|].
  destruct (Z.ltb_spec (start + n) 0) as [?|_]; [lia|].
  destruct (decide (start ≤ Z.of_nat (length l))%Z) as [Hle|Hgt].
  - rewrite (Z.min_l start) by done.
    destruct (decide (start + n ≤ Z.of_nat (length l))%Z).
    + rewrite Z.min_l by done. do 2 f_equal. lia.
    + rewrite Z.min_r by lia.
      rewrite !take_ge; [done|rewrite length_drop; lia..].
  - rewrite !Z.min_r by lia. rewrite Z.sub_diag. simpl.
    rewrite (drop_ge l (Z.to_nat start)) by lia. by rewrite take_nil.
Qed.

Lemma effective_page_pos (qu : Query.t) : (1 ≤ effective_page qu)%Z.
Proof. unfold effective_page. lia. Qed.

Lemma effective_limit_pos (qu : Query.t) : (1 ≤ effective_limit qu)%Z.
Proof. unfold effective_limit. lia. Qed.

Lemma by_category_filter (c : option string) (l : list product) :
  by_category c l = filter_when category_match c l.
Proof. done. Qed.

Lemma filter_try_total (f : product → error + bool) (g : product → bool)
    (l : list product) :
  Forall (λ p, f p = inr (g p)) l → filter_try f l = inr (List.filter g l).
Proof.
  induction 1 as [|p l Hp _ IH]; simpl; [done|].
  rewrite Hp, IH. by destruct (g p).
Qed.

Lemma matches_term_text (q : string) (p : product) :
  is_Some (description_text p) →
  matches_term (Js.toLowerCase q) p = inr (text_match q p).
Proof.
  unfold matches_term, text_match, description_text. intros [d Hd].
  destruct (Js.includes (Js.toLowerCase (name p)) _); [done|].
  destruct (if Js.truthy _ then _ else _); by simplify_eq.
Qed.

Lemma by_term_filter (q : option string) (l : list product) :
  Forall (λ p, is_Some (description_text p)) l →
  by_term q l = inr (filter_when text_match q l).
Proof.
  intros Hl. unfold by_term, filter_when. destruct q as [q|]; [|done].
  destruct (String.eqb q ""); [done|].
  apply filter_try_total. eapply Forall_impl; [done|].
  intros p. apply matches_term_text.
Qed.

Lemma Forall_filter_bool {A} (P : A → Prop) (f : A → bool) (l : list A) :
  Forall P l → Forall P (List.filter f l).
Proof.
  induction 1 as [|x l Hx _ IH]; simpl; [done|].
  destruct (f x); [by constructor|done].
Qed.

Lemma Forall_filter_when {A} (P : A → Prop) (f : string → A → bool)
    (v : option string) (l : list A) :
  Forall P l → Forall P (filter_when f v l).
Proof.
  intros H. unfold filter_when. destruct v as [s|]; [|done].
  destruct (String.eqb s ""); [done|]. by apply Forall_filter_bool.
Qed.

(** X20: take a collection whose names, categories and descriptions are
    ASCII strings (or falsy descriptions), ASCII [category] and [q], and
    [page] and [limit] that are ASCII and at most 2^26 in magnitude.  The
    list handler filters by category, then by text, then cuts the page of
    [limit] records at offset [(page - 1) * limit]; [total] counts the
    matches and [results] the records of the page. *)
Lemma list_products_textual (st : state) (key : option string) (qu : Query.t)
    (b : list (string * Js.value)) :
  Forall ascii_record (products st) →
  ascii_opt (Query.category qu) = true →
  ascii_opt (Query.q qu) = true →
  exact_param (Query.page qu) = true →
  exact_param (Query.limit qu) = true →
  Forall (λ p, is_Some (description_text p)) (products st) →
  let matches :=
    filter_when text_match (Query.q qu)
      (filter_when category_match (Query.category qu) (products st)) in
  let offset := ((effective_page qu - 1) * effective_limit qu)%Z in
  let paged :=
    take (Z.to_nat (effective_limit qu)) (drop (Z.to_nat offset) matches) in
  handle st (Request GET ["api"; "products"] key qu b) =
    ({| code := 200;
        content := ListBody (length paged) (effective_page qu)
                     (length matches) paged |}, st).
Proof.
  intros _ _ _ _ _ Htext matches offset paged.
  rewrite handle_list, by_category_filter, by_term_filter
    by by apply Forall_filter_when.
  pose proof (effective_page_pos qu). pose proof (effective_limit_pos qu).
  cbv zeta. rewrite slice_window by nia. done.
Qed.

Lemma filter_try_subseteq (f : product → error + bool) (l r : list product) :
  filter_try f l = inr r → r ⊆ l.
Proof.
  revert r. induction l as [|p l IH]; simpl; intros r.
  - by intros [= <-].
  - destruct (f p) as [e|keep]; [done|].
    destruct (filter_try f l) as [e|r']; [done|]. intros [= <-].
    specialize (IH r' eq_refl). destruct keep; set_solver.
Qed.

Lemma filter_bool_subseteq {A} (f : A → bool) (l : list A) : List.filter f l ⊆ l.
Proof. intros x. rewrite !list_elem_of_In, filter_In. tauto. Qed.

(** Every record of a page is a record of the collection. *)
Lemma list_page_subseteq (st st' : state) (key : option string) (qu : Query.t)
    (b : list (string * Js.value)) (c n total : nat) (p : Z) (data : list product) :
  handle st (Request GET ["api"; "products"] key qu b) =
    ({| code := c; content := ListBody n p total data |}, st') →
  data ⊆ products st.
Proof.
  rewrite handle_list.
  destruct (by_term _ _) as [e|results] eqn:E.
  { by destruct e; intros [= ? ?]. }
  intros [= _ _ _ _ <- _].
  assert (results ⊆ products st) as Hsub.
  { unfold by_term in E. transitivity (by_category (Query.category qu) (products st)).
    - destruct (Query.q qu) as [q|]; [|by simplify_eq].
      destruct (String.eqb q ""); [by simplify_eq|].
      by eapply filter_try_subseteq.
    - unfold by_category. destruct (Query.category qu) as [cat|]; [|done].
      destruct (String.eqb cat ""); [done|]. apply filter_bool_subseteq. }
  unfold slice. etransitivity; [apply subseteq_take|].
  etransitivity; [apply subseteq_drop|done].
Qed.

(** C8: a DELETE with the right key on the id of a stored record answers
    200 with that record and removes it, and nothing else, from the
    collection: the records before and after it stay, in their order.
    In a collection whose ids are pairwise distinct the id is then gone:
    a GET on it is answered 404 and no page of the list contains it. *)
Theorem delete_removes_one (st : state) (i : string) (qu : Query.t)
    (b : list (string * Js.value)) :
  NoDup (ids st) →
  i ∈ ids st →
  ∃ (l1 l2 : list product) (removed : product),
    products st = (l1 ++ removed :: l2)%list ∧ id removed = i ∧
    let st' := {| products := (l1 ++ l2)%list; uuid_calls := uuid_calls st |} in
    handle st (Request DELETE ["api"; "products"; i] (Some expected) qu b) =
      ({| code := 200; content := ProductBody removed |}, st') ∧
    (i ∉ ids st') ∧
    (∀ key' qu' b',
      handle st' (Request GET ["api"; "products"; i] key' qu' b') =
        ({| code := 404; content := ErrorBody "fail" "Product not found" |}, st')) ∧
    (∀ key' qu' b' n page total data,
      fst (handle st' (Request GET ["api"; "products"] key' qu' b')) =
        {| code := 200; content := ListBody n page total data |} →
      i ∉ id <$> data).
Proof.
  intros Hnd Hi.
  destruct (find_id_is_Some _ _ Hi) as (idx & p & Hfind).
  destruct (find_id_Some _ _ _ _ Hfind) as (l1 & l2 & Hl & Hlen & Hid & Hl1).
  exists l1, l2, p. split; [done|]. split; [done|]. intros st'.
  assert (i ∉ ids st') as Hgone.
  { unfold ids in *. simpl. rewrite Hl in Hnd.
    rewrite fmap_app, fmap_cons, Hid in Hnd.
    apply NoDup_app in Hnd as (_ & Hdisj & Hnd2).
    apply NoDup_cons in Hnd2 as [Hnot _].
    rewrite fmap_app, elem_of_app. by intros [?|?]. }
  split_and!.
  - rewrite handle_delete, decide_True, Hfind by done.
    unfold st'. do 2 f_equal. rewrite Hl, <- Hlen. apply delete_middle.
  - done.
  - intros key' qu' b'. rewrite handle_get_id.
    by apply find_id_None in Hgone as ->.
  - intros key' qu' b' n page total data Hres Hin.
    destruct (handle st' _) as [res st''] eqn:E. simpl in Hres. subst res.
    apply list_page_subseteq in E. apply Hgone.
    apply list_elem_of_fmap in Hin as (x & -> & Hx).
    apply list_elem_of_fmap. exists x. split; [done|]. by apply E.
Qed.

(** C5: the record created by an authorized POST whose description is the
    number 5 passes the validation and is stored; the text filter of the
    next GET /api/products?q=zzz then calls [toLowerCase] on that number,
    and the request is answered 500 instead of a filtered page. *)
Theorem list_fails_on_numeric_description :
  let create :=
    Sample.to POST ["api"; "products"] (Some expected) (Sample.mug (Js.Num 5) 4) in
  let st := snd (handle initial create) in
  code (fst (handle initial create)) = 201 ∧
  handle st (Sample.search None (Some "zzz") None None) =
    ({| code := 500; content := ErrorBody "error" not_a_function |}, st).
Proof.
  intros create st. unfold st, create, Sample.to, Sample.search.
  rewrite handle_post, decide_True by done. simpl. split; [done|].
  by rewrite handle_list.
Qed.

(** *** Validation of the price *)

Lemma includes_empty (t : string) : t ≠ "" → Js.includes "" t = false.
Proof. by destruct t. Qed.

(** C2: a create or update with the right key whose price is not of type
    number, or is NaN, is answered 400; the message is the list of
    violations joined by "; " and contains "price (number) is required";
    the state is left as it was.  (An infinite price is of type number and
    is not NaN: it passes this check.) *)
Theorem price_not_a_number_rejected (st : state) (i : string) (qu : Query.t)
    (b : list (string * Js.value)) :
  (∀ x, Js.get "price" b = Js.Num x → PrimFloat.is_nan x = true) →
  let errors := validation_errors b in
  let rejected :=
    ({| code := 400; content := ErrorBody "fail" (Js.join "; " errors) |}, st) in
  "price (number) is required" ∈ errors ∧
  Js.includes (Js.join "; " errors) "price (number) is required" = true ∧
  handle st (Request POST ["api"; "products"] (Some expected) qu b) = rejected ∧
  handle st (Request PUT ["api"; "products"; i] (Some expected) qu b) = rejected.
Proof.
  intros Hprice errors rejected.
  assert ("price (number) is required" ∈ errors) as Hin.
  { unfold errors, validation_errors. rewrite !elem_of_app. right. left.
    destruct (Js.get "price" b) as [| | |x| | |]; simpl; try by left.
    rewrite (Hprice x eq_refl). by left. }
  pose proof (includes_join "; " _ _ Hin) as Hinc.
  assert (error_handler (ValidationError (Js.join "; " errors)) =
          {| code := 400; content := ErrorBody "fail" (Js.join "; " errors) |}) as Herr.
  { simpl. destruct (String.eqb_spec (Js.join "; " errors) "") as [Hempty|]; [|done].
    rewrite Hempty, includes_empty in Hinc; done. }
  split_and!; [done..| |].
  - rewrite handle_post, decide_True by done. fold errors.
    destruct errors; [by apply elem_of_nil in Hin|]. by rewrite Herr.
  - rewrite handle_put, decide_True by done. fold errors.
    destruct errors; [by apply elem_of_nil in Hin|]. by rewrite Herr.
Qed.

(** *** Statistics *)

(** C1: on the seeded collection a GET of /api/products/stats is taken by
    the route /api/products/:id, registered before the stats route, with
    id "stats"; no record has that id and the answer is 404 "Product not
    found" instead of the statistics.  In no state is that request
    answered with the statistics. *)
Theorem stats_request_not_found (key : option string) (qu : Query.t)
    (b : list (string * Js.value)) :
  handle initial (Request GET ["api"; "products"; "stats"] key qu b) =
    ({| code := 404; content := ErrorBody "fail" "Product not found" |}, initial) ∧
  ∀ st countByCategory total,
    content (fst (handle st (Request GET ["api"; "products"; "stats"] key qu b)))
      ≠ StatsBody countByCategory total.
Proof.
  split; [by rewrite handle_get_id|].
  intros st countByCategory total. rewrite handle_get_id.
  by destruct (find_id "stats" (products st)) as [[? ?]|].
Qed.

Lemma bump_ordinary (acc : gmap string count) (c : string) :
  ordinary_key c = true →
  (∀ k s, acc !! k ≠ Some (Garbled s)) →
  bump acc c = <[c := Count (S (held acc c))]> acc.
Proof.
  unfold ordinary_key, bump, held. intros [Hp Hi]%andb_true_iff Hacc.
  destruct (acc !! c) as [[n|s]|] eqn:E.
  - do 2 f_equal. lia.
  - by destruct (Hacc c s).
  - destruct (String.eqb c "__proto__"); [done|].
    by destruct (inherited c Object_prototype_methods).
Qed.

Lemma stats_fold (l : list product) (acc : gmap string count) :
  Forall (λ p, ordinary_key (category p) = true) l →
  (∀ k s, acc !! k ≠ Some (Garbled s)) →
  let stats := fold_left (λ acc p, bump acc (category p)) l acc in
  (∀ k s, stats !! k ≠ Some (Garbled s)) ∧
  ∀ c, held stats c = held acc c + count_category c l ∧
       (stats !! c = None ↔ acc !! c = None ∧ count_category c l = 0).
Proof.
  intros Hl. revert acc. induction Hl as [|p l Hp _ IH]; intros acc Hacc; simpl.
  - split; [done|]. intros c. split; [unfold count_category; simpl; lia|].
    unfold count_category. simpl. naive_solver.
  - rewrite bump_ordinary by done.
    set (acc' := <[category p := Count (S (held acc (category p)))]> acc).
    assert (∀ k s, acc' !! k ≠ Some (Garbled s)) as Hacc'.
    { intros k s. unfold acc'. rewrite lookup_insert.
      case_decide; [done|apply Hacc]. }
    destruct (IH acc' Hacc') as [Hg Hc]. split; [done|].
    intros c. destruct (Hc c) as [Hheld Hnone]. rewrite Hheld, Hnone.
    unfold count_category. simpl.
    unfold held, acc'. rewrite lookup_insert.
    destruct (String.eqb_spec (category p) c) as [->|Hne].
    + rewrite decide_True by done. simpl. fold (count_category c l).
      split; [unfold held; lia|]. split; [by intros [? ?]|intros [_ ?]; lia].
    + rewrite decide_False by done. done.
Qed.

(** X19: the stats handler itself counts the records by category and in
    total, as long as no category is the name of a property of
    [Object.prototype]. *)
Lemma product_stats_counts (ps : params) (req : request) (st : state) :
  Forall (λ p, ordinary_key (category p) = true) (products st) →
  ∃ stats,
    product_stats ps req st =
      Send {| code := 200;
              content := StatsBody stats (length (products st)) |} st ∧
    ∀ c, stats !! c =
         match count_category c (products st) with
         | 0 => None
         | n => Some (Count n)
         end.
Proof.
  intros Hl. eexists. split; [done|]. intros c.
  destruct (stats_fold (products st) ∅ Hl) as [Hg Hc].
  { intros k s. by rewrite lookup_empty. }
  destruct (Hc c) as [Hheld Hnone].
  unfold held in Hheld. rewrite lookup_empty in Hheld, Hnone. simpl in Hheld.
  destruct (count_category c (products st)) as [|n] eqn:En.
  - by apply Hnone.
  - destruct (fold_left _ _ _ !! c) as [[m|s]|] eqn:E.
    + by subst.
    + by destruct (Hg c s).
    + destruct (proj1 Hnone eq_refl) as [_ ?]. lia.
Qed.

(** * Further properties of the middlewares and handlers *)

(** *** White space and [trim] *)

Lemma trimEnd_empty (s : string) : Js.trimEnd s = "" ↔ blank s = true.
Proof.
  induction s as [|c s IH]; simpl; [done|].
  destruct (Js.trimEnd s) as [|c' t] eqn:E.
  - destruct (Js.is_white c); simpl; [|done].
    split; [intros _; by apply IH|done].
  - split; [done|]. intros [_ Hs]%andb_true_iff. by apply IH in Hs.
Qed.

Lemma blank_trimStart (s : string) : blank (Js.trimStart s) = blank s.
Proof.
  induction s as [|c s IH]; simpl; [done|].
  destruct (Js.is_white c) eqn:E; simpl; [done|]. by rewrite E.
Qed.

Lemma trim_empty (s : string) : String.eqb (Js.trim s) "" = blank s.
Proof.
  unfold Js.trim. rewrite <- blank_trimStart.
  destruct (String.eqb_spec (Js.trimEnd (Js.trimStart s)) "") as [H|H].
  - symmetry. by apply trimEnd_empty.
  - destruct (blank (Js.trimStart s)) eqn:E; [|done].
    by apply trimEnd_empty in E.
Qed.

(** *** What the validation accepts *)

Lemma name_errors_nil (b : list (string * Js.value)) :
  name_errors (Js.get "name" b) = [] ↔ name_ok b.
Proof.
  unfold name_ok. destruct (Js.get "name" b) as [| | | |n| |]; simpl;
    try (split; [done|by intros (? & ? & ?)]).
  rewrite trim_empty. destruct (blank n) eqn:E.
  - split; [done|]. intros (n' & [= <-] & ?). congruence.
  - split; [by eauto|done].
Qed.

Lemma price_errors_nil (b : list (string * Js.value)) :
  price_errors (Js.get "price" b) = [] ↔ price_ok b.
Proof.
  unfold price_ok. destruct (Js.get "price" b) as [| | |x| | |]; simpl;
    try (split; [done|by intros (? & ? & ?)]).
  destruct (PrimFloat.is_nan x) eqn:E.
  - split; [done|]. intros (x' & [= <-] & ?). congruence.
  - split; [by eauto|done].
Qed.

Lemma category_errors_nil (b : list (string * Js.value)) :
  category_errors (Js.get "category" b) = [] ↔ category_ok b.
Proof.
  unfold category_ok. destruct (Js.get "category" b) as [| | | |n| |]; simpl;
    try (split; [done|by intros (? & ? & ?)]).
  rewrite trim_empty. destruct (blank n) eqn:E.
  - split; [done|]. intros (n' & [= <-] & ?). congruence.
  - split; [by eauto|done].
Qed.

Lemma inStock_errors_nil (b : list (string * Js.value)) :
  inStock_errors (Js.get "inStock" b) = [] ↔ inStock_ok b.
Proof.
  unfold inStock_ok. destruct (Js.get "inStock" b) as [| |s| | | |]; simpl;
    try (split; [done|by intros (? & ?)]).
  split; [by eauto|done].
Qed.

(** Each check contributes nothing or its one message. *)
Lemma validation_errors_shape (b : list (string * Js.value)) :
  ∃ e1 e2 e3 e4,
    validation_errors b = (e1 ++ e2 ++ e3 ++ e4)%list ∧
    (e1 = [] ∧ name_ok b ∨ e1 = ["name (string) is required"] ∧ ¬ name_ok b) ∧
    (e2 = [] ∧ price_ok b ∨ e2 = ["price (number) is required"] ∧ ¬ price_ok b) ∧
    (e3 = [] ∧ category_ok b ∨
     e3 = ["category (string) is required"] ∧ ¬ category_ok b) ∧
    (e4 = [] ∧ inStock_ok b ∨
     e4 = ["inStock (boolean) is required"] ∧ ¬ inStock_ok b).
Proof.
  exists (name_errors (Js.get "name" b)), (price_errors (Js.get "price" b)),
    (category_errors (Js.get "category" b)), (inStock_errors (Js.get "inStock" b)).
  split; [done|]. split_and!.
  - rewrite <- name_errors_nil.
    destruct (Js.get "name" b) as [| | | |n| |]; simpl; try (by right).
    destruct (String.eqb _ ""); [by right|by left].
  - rewrite <- price_errors_nil.
    destruct (Js.get "price" b) as [| | |x| | |]; simpl; try (by right).
    destruct (PrimFloat.is_nan x); [by right|by left].
  - rewrite <- category_errors_nil.
    destruct (Js.get "category" b) as [| | | |n| |]; simpl; try (by right).
    destruct (String.eqb _ ""); [by right|by left].
  - rewrite <- inStock_errors_nil.
    destruct (Js.get "inStock" b) as [| |s| | | |]; simpl; try (by right).
    by left.
Qed.

Lemma validation_message_nonempty (b : list (string * Js.value)) :
  validation_errors b ≠ [] →
  String.eqb (Js.join "; " (validation_errors b)) "" = false.
Proof.
  destruct (validation_errors_shape b)
    as (e1 & e2 & e3 & e4 & -> & [[-> _]|[-> _]] & [[-> _]|[-> _]] &
        [[-> _]|[-> _]] & [[-> _]|[-> _]]); done.
Qed.

Lemma validation_rejects (b : list (string * Js.value)) :
  validation_errors b ≠ [] →
  error_handler (ValidationError (Js.join "; " (validation_errors b))) =
    {| code := 400;
       content := ErrorBody "fail" (Js.join "; " (validation_errors b)) |}.
Proof. intros H. simpl. by rewrite validation_message_nonempty. Qed.

(** X1: for a body whose name and category, when strings, are ASCII:
    [validateProduct] lets it through exactly when its name and category
    are strings with a character that is not white space, its price is a
    number other than NaN and its inStock is a boolean; with the
    configured key a POST of such a body is answered 201 and a POST of any
    other such body 400. *)
Theorem validation_accepts_exactly (st : state) (qu : Query.t)
    (b : list (string * Js.value)) :
  ascii_fields b →
  (validation_errors b = [] ↔
   name_ok b ∧ price_ok b ∧ category_ok b ∧ inStock_ok b) ∧
  code (fst (serve st (Http POST ["api"; "products"] (Some expected) qu (Json b)))) =
    (if decide (validation_errors b = []) then 201 else 400).
Proof.
  intros _. split.
  - unfold validation_errors.
    rewrite <- name_errors_nil, <- price_errors_nil, <- category_errors_nil,
      <- inStock_errors_nil.
    split.
    + by intros (? & (? & (? & ?)%app_eq_nil)%app_eq_nil)%app_eq_nil.
    + by intros (-> & -> & -> & ->).
  - unfold serve, bodyParser_json. simpl.
    rewrite handle_post, decide_True by done. case_decide as Hv.
    + destruct (validateProduct_typed _ Hv) as (n & x & c & s & _ & _ & _ & _ & Hd).
      by rewrite Hv, Hd.
    + pose proof (validation_rejects _ Hv) as Hr.
      destruct (validation_errors b); [done|]. by rewrite Hr.
Qed.

(** X2: for a body whose name and category, when strings, are ASCII, the
    message of a validation error names a field exactly when that field
    violates its condition: each of the four messages occurs in the joined
    text if and only if its check failed. *)
Theorem validation_message_names_violations (b : list (string * Js.value)) :
  ascii_fields b →
  let message := Js.join "; " (validation_errors b) in
  (Js.includes message "name (string) is required" = true ↔ ¬ name_ok b) ∧
  (Js.includes message "price (number) is required" = true ↔ ¬ price_ok b) ∧
  (Js.includes message "category (string) is required" = true ↔ ¬ category_ok b) ∧
  (Js.includes message "inStock (boolean) is required" = true ↔ ¬ inStock_ok b).
Proof.
  intros _ message. unfold message.
  destruct (validation_errors_shape b)
    as (e1 & e2 & e3 & e4 & -> & [[-> H1]|[-> H1]] & [[-> H2]|[-> H2]] &
        [[-> H3]|[-> H3]] & [[-> H4]|[-> H4]]);
    vm_compute Js.includes; split_and!; split; done.
Qed.

(** X3: on the create and update routes the validation comes before the
    handler: with the configured key, a body with ASCII name and category
    that fails it is answered 400 with the joined messages and the state
    is untouched, for POST and for PUT on any id, stored or not. *)
Theorem invalid_body_rejected_before_lookup (st : state) (i : string)
    (qu : Query.t) (b : list (string * Js.value)) :
  ascii_fields b →
  validation_errors b ≠ [] →
  let rejected :=
    ({| code := 400;
        content := ErrorBody "fail" (Js.join "; " (validation_errors b)) |}, st) in
  serve st (Http POST ["api"; "products"] (Some expected) qu (Json b)) = rejected ∧
  serve st (Http PUT ["api"; "products"; i] (Some expected) qu (Json b)) = rejected.
Proof.
  intros _ Hv rejected. pose proof (validation_rejects _ Hv) as Hr.
  unfold serve, bodyParser_json. simpl.
  rewrite handle_post, handle_put, !decide_True by done.
  destruct (validation_errors b); [done|]. by rewrite Hr.
Qed.

(** *** The API key *)

(** X4: on the update and delete routes the key is checked before the
    validation and the lookup: a PUT or DELETE on /api/products/:id whose
    x-api-key header is absent or is not the configured secret, and whose
    body [bodyParser.json()] accepts, is answered 401 whatever the id and
    whatever the body holds.  Only the parser comes earlier: a body it
    refuses is answered with the parser's status and status "error".  In
    both cases the state is untouched. *)
Theorem write_without_key_unauthorized (st : state) (i : string)
    (key : option string) (qu : Query.t) :
  key ≠ Some expected →
  (∀ b,
     let refused :=
       ({| code := 401; content := ErrorBody "fail" "Invalid or missing API key" |},
        st) in
     serve st (Http PUT ["api"; "products"; i] key qu (Json b)) = refused ∧
     serve st (Http DELETE ["api"; "products"; i] key qu (Json b)) = refused) ∧
  (∀ c m,
     let unparsed :=
       ({| code := if (c =? 0)%nat then 500 else c;
           content := ErrorBody "error"
             (if String.eqb m "" then "Internal Server Error" else m) |}, st) in
     serve st (Http PUT ["api"; "products"; i] key qu (Unparsable c m)) = unparsed ∧
     serve st (Http DELETE ["api"; "products"; i] key qu (Unparsable c m)) = unparsed).
Proof.
  intros Hk. split.
  - intros b refused. unfold serve, bodyParser_json. simpl.
    by rewrite handle_put, handle_delete, !decide_False.
  - intros c m unparsed. by split.
Qed.

(** X5: the secret is never empty: with API_KEY unset or set to the empty
    string it is "secret-key", otherwise it is API_KEY.  So an empty
    x-api-key header is refused on the three write routes under every
    configuration. *)
Theorem empty_key_refused (st : state) (i : string) (qu : Query.t)
    (b : list (string * Js.value)) :
  expected = match env_API_KEY with
             | None | Some "" => "secret-key"
             | Some k => k
             end ∧
  expected ≠ "" ∧
  let refused :=
    ({| code := 401; content := ErrorBody "fail" "Invalid or missing API key" |},
     st) in
  handle st (Request POST ["api"; "products"] (Some "") qu b) = refused ∧
  handle st (Request PUT ["api"; "products"; i] (Some "") qu b) = refused ∧
  handle st (Request DELETE ["api"; "products"; i] (Some "") qu b) = refused.
Proof.
  assert (expected ≠ "") as Hne.
  { intros H. pose proof expected_nonempty as E. by rewrite H in E. }
  split; [|split; [done|]].
  { unfold expected. destruct env_API_KEY as [[|c k]|]; done. }
  intros refused. split_and!.
  - rewrite handle_post, decide_False; [done|congruence].
  - rewrite handle_put, decide_False; [done|congruence].
  - rewrite handle_delete, decide_False; [done|congruence].
Qed.

(** *** Reads *)

(** X6: a GET request never changes the state, whatever its path, its
    x-api-key header and its body.  When [bodyParser.json()] accepts its
    body it is answered 200, 404 or 500, so never 401 (reads need no key);
    when the parser refuses the body it is answered with the parser's
    status. *)
Theorem get_is_pure (st : state) (p : list string) (key : option string)
    (qu : Query.t) (raw : parsed) :
  snd (serve st (Http GET p key qu raw)) = st ∧
  match raw with
  | Json _ =>
      code (fst (serve st (Http GET p key qu raw))) = 200 ∨
      code (fst (serve st (Http GET p key qu raw))) = 404 ∨
      code (fst (serve st (Http GET p key qu raw))) = 500
  | Unparsable c m =>
      code (fst (serve st (Http GET p key qu raw))) =
        if (c =? 0)%nat then 500 else c
  end.
Proof.
  destruct raw as [b|c m]; [|done].
  unfold serve, bodyParser_json. simpl. unfold handle.
  apply (dispatch_spec (λ rs,
    snd rs = st ∧ (code (fst rs) = 200 ∨ code (fst rs) = 404 ∨ code (fst rs) = 500)));
    [naive_solver|].
  unfold routes. repeat apply Forall_cons_2; [..|apply Forall_nil_2];
    intros ps Hm Hp; try discriminate Hm; simpl route_stack; simpl run_stack.
  - naive_solver.
  - unfold asyncHandler, list_products.
    destruct (by_term _ _) as [e|l] eqn:E; [|naive_solver].
    apply by_term_error in E as ->. naive_solver.
  - unfold asyncHandler, get_product.
    destruct (find_id _ _) as [[? ?]|]; naive_solver.
  - naive_solver.
Qed.

(** *** Create *)

Lemma handle_post_valid (st : state) (qu : Query.t) (b : list (string * Js.value)) :
  validation_errors b = [] →
  ∃ n x c s,
    Js.get "name" b = Js.Str n ∧ Js.get "price" b = Js.Num x ∧
    Js.get "category" b = Js.Str c ∧ Js.get "inStock" b = Js.Bool s ∧
    let new := Product (uuidv4 (uuid_calls st)) n
                 (match Js.get "description" b with
                  | Js.Undefined => Js.Str ""
                  | v => v
                  end) x c s in
    handle st (Request POST ["api"; "products"] (Some expected) qu b) =
      ({| code := 201; content := ProductBody new |},
       {| products := (products st ++ [new])%list;
          uuid_calls := S (uuid_calls st) |}).
Proof.
  intros Hb.
  destruct (validateProduct_typed _ Hb) as (n & x & c & s & Hn & Hx & Hc & Hs & Hd).
  exists n, x, c, s. split_and!; [done..|].
  by rewrite handle_post, decide_True, Hb, Hd.
Qed.

(** X7: with the configured key and a body that passes the validation, a
    POST is answered 201 with a record made of the generated id and the
    submitted name, price, category and inStock; its description is the
    submitted one, whatever its type, and the empty string only when the
    body has none.  The record is appended after the stored ones, which
    are untouched. *)
Theorem create_appends_submitted (st : state) (qu : Query.t)
    (b : list (string * Js.value)) :
  validation_errors b = [] →
  ∃ new : product,
    handle st (Request POST ["api"; "products"] (Some expected) qu b) =
      ({| code := 201; content := ProductBody new |},
       {| products := (products st ++ [new])%list;
          uuid_calls := S (uuid_calls st) |}) ∧
    id new = uuidv4 (uuid_calls st) ∧
    Js.Str (name new) = Js.get "name" b ∧
    Js.Num (price new) = Js.get "price" b ∧
    Js.Str (category new) = Js.get "category" b ∧
    Js.Bool (inStock new) = Js.get "inStock" b ∧
    description new = (match Js.get "description" b with
                       | Js.Undefined => Js.Str ""
                       | v => v
                       end).
Proof.
  intros Hb.
  destruct (handle_post_valid st qu b Hb) as (n & x & c & s & Hn & Hx & Hc & Hs & Hpost).
  eexists. split; [exact Hpost|]. by rewrite Hn, Hx, Hc, Hs.
Qed.

(** X8: a record just created under an id that no stored record carries is
    what a GET on that id returns.  (When the generated id is already taken,
    the GET returns the older record: the lookup stops at the first
    match.) *)
Theorem create_then_get (st : state) (qu qu' : Query.t) (key' : option string)
    (b b' : list (string * Js.value)) :
  validation_errors b = [] →
  let created := handle st (Request POST ["api"; "products"] (Some expected) qu b) in
  let get :=
    handle (snd created)
      (Request GET ["api"; "products"; uuidv4 (uuid_calls st)] key' qu' b') in
  code (fst created) = 201 ∧ code (fst get) = 200 ∧
  (uuidv4 (uuid_calls st) ∉ ids st → content (fst get) = content (fst created)) ∧
  (∀ idx old, find_id (uuidv4 (uuid_calls st)) (products st) = Some (idx, old) →
              content (fst get) = ProductBody old).
Proof.
  intros Hb created get.
  destruct (handle_post_valid st qu b Hb) as (n & x & c & s & _ & _ & _ & _ & Hpost).
  cbv zeta in Hpost. set (new := Product _ _ _ _ _ _) in Hpost.
  assert (id new = uuidv4 (uuid_calls st)) as Hid by done.
  unfold get, created. rewrite Hpost. simpl. rewrite handle_get_id. simpl.
  unfold find_id. split; [done|]. split; [|split; [intros Hfresh|intros idx old Hold]].
  - destruct (list_find _ _) as [[? ?]|] eqn:E; [done|].
    apply list_find_None in E. apply Forall_app in E as [_ E].
    rewrite Forall_singleton in E. by destruct E.
  - apply find_id_None in Hfresh. unfold find_id in Hfresh.
    rewrite list_find_app_r by done. simpl.
    rewrite decide_True by done. done.
  - unfold find_id in Hold. by rewrite (list_find_app_l _ _ _ _ _ Hold).
Qed.

(** *** Update *)

Lemma find_id_middle (i : string) (l1 l2 : list product) (p : product) :
  i ∉ id <$> l1 → id p = i →
  find_id i (l1 ++ p :: l2)%list = Some (length l1, p).
Proof.
  intros Hl1%find_id_None Hp. unfold find_id in *.
  rewrite list_find_app_r by done. simpl. by rewrite decide_True.
Qed.

(** X9: after a successful PUT, a GET on the same id returns the record
    the PUT answered with, and repeating the PUT gives the same answer and
    leaves the state as the first one left it. *)
Theorem put_then_get_and_again (st : state) (i : string) (qu qu' : Query.t)
    (key' : option string) (b b' : list (string * Js.value)) :
  validation_errors b = [] →
  i ∈ ids st →
  let put := Request PUT ["api"; "products"; i] (Some expected) qu b in
  let st' := snd (handle st put) in
  code (fst (handle st put)) = 200 ∧
  handle st' (Request GET ["api"; "products"; i] key' qu' b') =
    (fst (handle st put), st') ∧
  handle st' put = (fst (handle st put), st').
Proof.
  intros Hb Hi put st'.
  destruct (find_id_is_Some _ _ Hi) as (idx & old & Hfind).
  destruct (find_id_Some _ _ _ _ Hfind) as (l1 & l2 & Hl & Hlen & Hid & Hl1).
  destruct (validateProduct_typed _ Hb) as (n & x & c & s & _ & _ & _ & _ & Hd).
  assert (handle st put =
          ({| code := 200; content := ProductBody (Product i n
                (match Js.get "description" b with
                 | Js.Undefined => Js.Str ""
                 | v => v
                 end) x c s) |},
           {| products := (l1 ++ Product i n
                (match Js.get "description" b with
                 | Js.Undefined => Js.Str ""
                 | v => v
                 end) x c s :: l2)%list;
              uuid_calls := uuid_calls st |})) as Hput.
  { unfold put. rewrite handle_put, decide_True, Hb, Hfind, Hd by done.
    simpl. rewrite Hid. do 2 f_equal. rewrite Hl, <- Hlen. apply insert_middle. }
  unfold st'. rewrite Hput. simpl. split_and!; [done| |].
  - rewrite handle_get_id. simpl. by rewrite find_id_middle.
  - unfold put. rewrite handle_put, decide_True, Hb by done. simpl.
    rewrite find_id_middle, Hd by done. simpl. by rewrite insert_middle.
Qed.

(** *** The list handler *)

Lemma matches_term_breaks (q : string) (p : product) :
  breaks_filter q p = true ↔
  matches_term (Js.toLowerCase q) p = inl (TypeError not_a_function).
Proof.
  unfold breaks_filter, matches_term, description_text.
  destruct (Js.includes (Js.toLowerCase (name p)) _); simpl; [done|].
  destruct (if Js.truthy _ then _ else _); done.
Qed.

Lemma filter_try_breaks (q : string) (l : list product) :
  existsb (breaks_filter q) l =
  match filter_try (matches_term (Js.toLowerCase q)) l with
  | inl _ => true
  | inr _ => false
  end.
Proof.
  induction l as [|p l IH]; simpl; [done|].
  destruct (breaks_filter q p) eqn:E.
  - apply matches_term_breaks in E as ->. done.
  - destruct (matches_term (Js.toLowerCase q) p) as [e|keep] eqn:Em.
    + pose proof (filter_try_error (Js.toLowerCase q) [p] e) as He.
      simpl in He. rewrite Em in He. specialize (He eq_refl). subst e.
      apply matches_term_breaks in Em. congruence.
    + simpl. rewrite IH. by destruct (filter_try _ l).
Qed.

(** X10: take a collection whose names, categories and string descriptions
    are ASCII, and ASCII [category] and [q].  A GET /api/products whose
    body the parser accepts is answered 500 exactly when a non-empty [q]
    is given and, among the records that pass the category filter, there
    is one whose name does not contain the term and whose description is
    neither a string nor falsy; otherwise it is answered 200. *)
Theorem list_fails_exactly_when (st : state) (key : option string)
    (qu : Query.t) (b : list (string * Js.value)) :
  Forall ascii_record (products st) →
  ascii_opt (Query.category qu) = true →
  ascii_opt (Query.q qu) = true →
  code (fst (serve st (Http GET ["api"; "products"] key qu (Json b)))) =
  if match Query.q qu with
     | Some q =>
         negb (String.eqb q "") &&
         existsb (breaks_filter q)
           (filter_when category_match (Query.category qu) (products st))
     | None => false
     end
  then 500 else 200.
Proof.
  intros _ _ _. unfold serve, bodyParser_json. simpl.
  rewrite handle_list, by_category_filter. unfold by_term.
  destruct (Query.q qu) as [q|]; [|done].
  destruct (String.eqb q ""); simpl; [done|].
  rewrite filter_try_breaks.
  destruct (filter_try _ _) as [e|r] eqn:E; [|done].
  by apply filter_try_error in E as ->.
Qed.

(** X11: for [page] and [limit] parameters that are ASCII and at most 2^26
    in magnitude: in a list answer, [results] is the length of the page,
    which is at most the limit used and at most [total]; [total] is at
    most the size of the collection; the page number is at least 1; the
    records of the page are records of the collection; and a page that
    starts at or past [total] is empty. *)
Theorem list_page_bounds (st st' : state) (key : option string) (qu : Query.t)
    (b : list (string * Js.value)) (c n total : nat) (p : Z)
    (data : list product) :
  exact_param (Query.page qu) = true →
  exact_param (Query.limit qu) = true →
  handle st (Request GET ["api"; "products"] key qu b) =
    ({| code := c; content := ListBody n p total data |}, st') →
  c = 200 ∧ st' = st ∧ n = length data ∧ n ≤ total ∧
  (Z.of_nat n ≤ effective_limit qu)%Z ∧
  total ≤ length (products st) ∧
  p = effective_page qu ∧ (1 ≤ p)%Z ∧
  data ⊆ products st ∧
  ((Z.of_nat total ≤ (p - 1) * effective_limit qu)%Z → data = []).
Proof.
  intros _ _ H. pose proof (list_page_subseteq _ _ _ _ _ _ _ _ _ _ H) as Hsub.
  rewrite handle_list in H.
  destruct (by_term _ _) as [e|results] eqn:E.
  { by destruct e; simplify_eq. }
  pose proof (effective_page_pos qu) as Hp. pose proof (effective_limit_pos qu) as Hl.
  cbv zeta in H. rewrite slice_window in H by nia.
  injection H as <- <- <- <- <- <-.
  assert (length results ≤ length (products st)) as Hlen.
  { transitivity (length (by_category (Query.category qu) (products st))).
    - unfold by_term in E. destruct (Query.q qu) as [q|]; [|by simplify_eq].
      destruct (String.eqb q ""); [by simplify_eq|].
      clear -E. revert results E.
      induction (by_category _ _) as [|x l IH]; simpl; intros r.
      + by intros [= <-].
      + destruct (matches_term _ x) as [|keep]; [done|].
        destruct (filter_try _ l) as [|r']; [done|]. intros [= <-].
        specialize (IH r' eq_refl). destruct keep; simpl; lia.
    - unfold by_category. destruct (Query.category qu) as [cat|]; [|done].
      destruct (String.eqb cat ""); [done|]. apply List.filter_length_le. }
  rewrite length_take, length_drop.
  split_and!; try done; try lia.
  intros Hpast. rewrite drop_ge by lia. by rewrite take_nil.
Qed.

(** X12: [total] does not depend on [page] and [limit]: two list requests
    with the same [category] and [q] get answers with the same status and,
    when they are lists, the same [total]. *)
Theorem total_independent_of_page (st : state) (key key' : option string)
    (c q page limit page' limit' : option string)
    (b b' : list (string * Js.value)) :
  let r1 := fst (handle st (Request GET ["api"; "products"] key
                              (Query.Make c q page limit) b)) in
  let r2 := fst (handle st (Request GET ["api"; "products"] key'
                              (Query.Make c q page' limit') b')) in
  code r1 = code r2 ∧
  match content r1, content r2 with
  | ListBody _ _ total1 _, ListBody _ _ total2 _ => total1 = total2
  | ErrorBody s1 m1, ErrorBody s2 m2 => s1 = s2 ∧ m1 = m2
  | _, _ => False
  end.
Proof.
  intros r1 r2. unfold r1, r2. rewrite !handle_list. simpl.
  by destruct (by_term q (by_category c (products st))) as [[]|].
Qed.

(** *** The answers of the service *)

(** The stats route never gets a request: whatever matches its path also
    matches /api/products/:id, which is registered before it and always
    answers.  The router therefore behaves as if it had only its first six
    routes. *)
Lemma stats_route_dead (st : state) (req : request) :
  handle st req = dispatch (take 6 routes) req st.
Proof.
  unfold handle, routes. simpl take.
  destruct req as [m p key qu b]. destruct m; [|reflexivity..].
  simpl. destruct p as [|x1 [|x2 [|x3 [|x4 rest]]]]; simpl; try reflexivity.
  - by destruct (String.eqb _ _).
  - destruct (String.eqb _ _); [|done]. by destruct (String.eqb _ _).
  - destruct (String.eqb _ _); [|done]. destruct (String.eqb _ _); [|done].
    unfold asyncHandler, get_product. simpl.
    by destruct (find_id _ _) as [[? ?]|].
  - destruct (String.eqb _ _); [|done]. destruct (String.eqb _ _); [|done].
    by destruct (String.eqb _ _).
Qed.

(** X13: every answer of the application has one of eight shapes: the
    error of [bodyParser.json()] for a body it refuses, with its status
    (500 when it has none) and status "error"; and, for a body it accepts,
    200 with the greeting, a list or a record; 201 with a record; 401
    "Invalid or missing API key"; 400 with status "fail"; 404 "Product not
    found"; Express's own 404 when no route matches; 500 with status
    "error". *)
Theorem answer_shapes (st : state) (r : http_request) :
  let res := fst (serve st r) in
  (∃ c m, http_body r = Unparsable c m ∧
          code res = (if (c =? 0)%nat then 500 else c) ∧
          ∃ m', content res = ErrorBody "error" m') ∨
  (code res = 200 ∧
   ((∃ s, content res = Text s) ∨
    (∃ n p total data, content res = ListBody n p total data) ∨
    (∃ p, content res = ProductBody p))) ∨
  (code res = 201 ∧ ∃ p, content res = ProductBody p) ∨
  res = {| code := 401; content := ErrorBody "fail" "Invalid or missing API key" |} ∨
  (∃ m, res = {| code := 400; content := ErrorBody "fail" m |}) ∨
  res = {| code := 404; content := ErrorBody "fail" "Product not found" |} ∨
  res = {| code := 404; content := NoRoute |} ∨
  (∃ m, res = {| code := 500; content := ErrorBody "error" m |}).
Proof.
  unfold serve, bodyParser_json. destruct (http_body r) as [b|c m]; simpl.
  2:{ left. exists c, m. naive_solver. }
  right. set (req := Request _ _ _ _ _). rewrite stats_route_dead.
  apply (dispatch_spec (λ rs,
    let res := fst rs in
    (code res = 200 ∧
     ((∃ s, content res = Text s) ∨
      (∃ n p total data, content res = ListBody n p total data) ∨
      (∃ p, content res = ProductBody p))) ∨
    (code res = 201 ∧ ∃ p, content res = ProductBody p) ∨
    res = {| code := 401; content := ErrorBody "fail" "Invalid or missing API key" |} ∨
    (∃ m, res = {| code := 400; content := ErrorBody "fail" m |}) ∨
    res = {| code := 404; content := ErrorBody "fail" "Product not found" |} ∨
    res = {| code := 404; content := NoRoute |} ∨
    (∃ m, res = {| code := 500; content := ErrorBody "error" m |})));
    [naive_solver|].
  unfold routes. simpl take. repeat apply Forall_cons_2; [..|apply Forall_nil_2];
    intros ps Hm Hp; simpl route_stack; simpl run_stack.
  - left. naive_solver.
  - unfold asyncHandler, list_products.
    destruct (by_term _ _) as [e|l] eqn:E.
    + apply by_term_error in E as ->. simpl. naive_solver.
    + left. simpl. naive_solver.
  - unfold asyncHandler, get_product.
    destruct (find_id _ _) as [[? ?]|]; simpl; naive_solver.
  - unfold requireApiKey, validateProduct.
    destruct (x_api_key req) as [key|]; [|simpl; naive_solver].
    destruct (String.eqb _ "" || _); [simpl; naive_solver|].
    destruct (validation_errors (body req)) as [|e es] eqn:Ev.
    + destruct (validateProduct_typed _ Ev) as (n & x & c & s & _ & _ & _ & _ & Hd).
      unfold asyncHandler, create_product. rewrite Hd. simpl. naive_solver.
    + assert (validation_errors (body req) ≠ []) as Hne by by rewrite Ev.
      pose proof (validation_rejects _ Hne) as Hr. rewrite Ev in Hr.
      cbv beta iota zeta. rewrite Hr. simpl fst. naive_solver.
  - unfold requireApiKey, validateProduct.
    destruct (x_api_key req) as [key|]; [|simpl; naive_solver].
    destruct (String.eqb _ "" || _); [simpl; naive_solver|].
    destruct (validation_errors (body req)) as [|e es] eqn:Ev.
    + destruct (validateProduct_typed _ Ev) as (n & x & c & s & _ & _ & _ & _ & Hd).
      unfold asyncHandler, update_product. rewrite Hd.
      destruct (find_id _ _) as [[? ?]|]; simpl; naive_solver.
    + assert (validation_errors (body req) ≠ []) as Hne by by rewrite Ev.
      pose proof (validation_rejects _ Hne) as Hr. rewrite Ev in Hr.
      cbv beta iota zeta. rewrite Hr. simpl fst. naive_solver.
  - unfold requireApiKey.
    destruct (x_api_key req) as [key|]; [|simpl; naive_solver].
    destruct (String.eqb _ "" || _); [simpl; naive_solver|].
    unfold asyncHandler, delete_product.
    destruct (find_id _ _) as [[? ?]|]; simpl; naive_solver.
Qed.

(** X14: no request whatsoever is answered with the statistics: every
    path that the stats route matches is taken by /api/products/:id. *)
Theorem statistics_never_served (st : state) (req : request)
    (countByCategory : gmap string count) (total : nat) :
  content (fst (handle st req)) ≠ StatsBody countByCategory total.
Proof.
  rewrite stats_route_dead.
  apply (dispatch_spec (λ rs, content (fst rs) ≠ StatsBody countByCategory total));
    [done|].
  unfold routes. simpl take. repeat apply Forall_cons_2; [..|apply Forall_nil_2];
    intros ps Hm Hp; simpl route_stack; simpl run_stack.
  - done.
  - unfold asyncHandler, list_products. by destruct (by_term _ _) as [[]|].
  - unfold asyncHandler, get_product. by destruct (find_id _ _) as [[? ?]|].
  - unfold requireApiKey, validateProduct.
    destruct (x_api_key req) as [key|]; [|done].
    destruct (String.eqb _ "" || _); [done|].
    destruct (validation_errors (body req)); [|done].
    unfold asyncHandler, create_product.
    by destruct (destructure _) as [[[[[n d] x] c] s]|].
  - unfold requireApiKey, validateProduct.
    destruct (x_api_key req) as [key|]; [|done].
    destruct (String.eqb _ "" || _); [done|].
    destruct (validation_errors (body req)); [|done].
    unfold asyncHandler, update_product.
    destruct (find_id _ _) as [[idx old]|]; [|done].
    by destruct (destructure _) as [[[[[n d] x] c] s]|].
  - unfold requireApiKey.
    destruct (x_api_key req) as [key|]; [|done].
    destruct (String.eqb _ "" || _); [done|].
    unfold asyncHandler, delete_product.
    by destruct (find_id _ _) as [[? ?]|].
Qed.

(** X15: a request for a method and path that no route registers is
    answered by Express's own 404 and changes nothing; no key is asked
    for.  This is the case of POST on /api/products/:id, of PUT and DELETE
    on /api/products, and of the three write methods on /. *)
Theorem unregistered_writes_not_routed (st : state) (i : string)
    (key : option string) (qu : Query.t) (b : list (string * Js.value)) :
  let unrouted := ({| code := 404; content := NoRoute |}, st) in
  handle st (Request POST ["api"; "products"; i] key qu b) = unrouted ∧
  handle st (Request PUT ["api"; "products"] key qu b) = unrouted ∧
  handle st (Request DELETE ["api"; "products"] key qu b) = unrouted ∧
  handle st (Request POST [] key qu b) = unrouted ∧
  handle st (Request PUT [] key qu b) = unrouted ∧
  handle st (Request DELETE [] key qu b) = unrouted.
Proof. intros unrouted. split_and!; reflexivity. Qed.

(** *** What each write method can do to the collection *)

(** X16: a POST either leaves the collection as it is or appends one
    record to it; a PUT keeps the sequence of ids, hence the number of
    records; a DELETE either leaves the collection as it is or takes one
    record out, the others keeping their order. *)
Theorem write_frames (st : state) (req : request) :
  let st' := snd (handle st req) in
  match meth req with
  | GET => st' = st
  | POST => products st' = products st ∨
            ∃ p, products st' = (products st ++ [p])%list
  | PUT => ids st' = ids st
  | DELETE => products st' = products st ∨
              ∃ l1 x l2, products st = (l1 ++ x :: l2)%list ∧
                         products st' = (l1 ++ l2)%list
  end.
Proof.
  unfold handle.
  apply (dispatch_spec (λ rs,
    let st' := snd rs in
    match meth req with
    | GET => st' = st
    | POST => products st' = products st ∨
              ∃ p, products st' = (products st ++ [p])%list
    | PUT => ids st' = ids st
    | DELETE => products st' = products st ∨
                ∃ l1 x l2, products st = (l1 ++ x :: l2)%list ∧
                           products st' = (l1 ++ l2)%list
    end)).
  { simpl. destruct (meth req); auto. }
  unfold routes. repeat apply Forall_cons_2; [..|apply Forall_nil_2];
    intros ps Hm Hp; simpl in Hm; rewrite Hm; simpl route_stack; simpl run_stack.
  - done.
  - unfold asyncHandler, list_products. by destruct (by_term _ _).
  - unfold asyncHandler, get_product. by destruct (find_id _ _) as [[? ?]|].
  - unfold requireApiKey, validateProduct.
    destruct (x_api_key req) as [key|]; [|by left].
    destruct (String.eqb _ "" || _); [by left|].
    destruct (validation_errors (body req)); [|by left].
    unfold asyncHandler, create_product.
    destruct (destructure _) as [[[[[n d] x] c] s]|]; [|by left].
    right. by eexists.
  - unfold requireApiKey, validateProduct.
    destruct (x_api_key req) as [key|]; [|done].
    destruct (String.eqb _ "" || _); [done|].
    destruct (validation_errors (body req)); [|done].
    unfold asyncHandler, update_product.
    destruct (find_id _ _) as [[idx old]|] eqn:Hfind; [|done].
    destruct (destructure _) as [[[[[n d] x] c] s]|]; [|done].
    simpl. unfold ids. simpl. rewrite list_fmap_insert. simpl.
    apply list_insert_id. rewrite list_lookup_fmap.
    unfold find_id in Hfind. apply list_find_Some in Hfind as (-> & _ & _). done.
  - unfold requireApiKey.
    destruct (x_api_key req) as [key|]; [|by left].
    destruct (String.eqb _ "" || _); [by left|].
    unfold asyncHandler, delete_product.
    destruct (find_id _ _) as [[idx old]|] eqn:Hfind; [|by left].
    destruct (find_id_Some _ _ _ _ Hfind) as (l1 & l2 & Hl & Hlen & Hid & Hl1).
    right. exists l1, old, l2. split; [done|]. simpl.
    rewrite Hl, <- Hlen. apply delete_middle.
  - done.
Qed.

(** *** Stored records are validated records *)

Lemma destructure_valid (b : list (string * Js.value)) n d x c s :
  ascii_fields b →
  validation_errors b = [] → destructure b = Some (n, d, x, c, s) →
  (blank n = false ∧ blank c = false ∧ PrimFloat.is_nan x = false) ∧
  ascii_only n = true ∧ ascii_only c = true.
Proof.
  intros Ha Hv Hd. unfold validation_errors in Hv.
  apply app_eq_nil in Hv as (Hn & (Hp & (Hc & _)%app_eq_nil)%app_eq_nil).
  apply name_errors_nil in Hn as (n' & Hn' & Hbn).
  apply price_errors_nil in Hp as (x' & Hx' & Hnx).
  apply category_errors_nil in Hc as (c' & Hc' & Hbc).
  pose proof (Ha n' (or_introl Hn')) as Han.
  pose proof (Ha c' (or_intror Hc')) as Hac.
  unfold destructure in Hd. rewrite Hn', Hx', Hc' in Hd.
  destruct (Js.get "inStock" b); by simplify_eq.
Qed.

Lemma handle_keeps_valid (st : state) (req : request) :
  ascii_fields (body req) →
  Forall (λ p, valid_record p ∧ ascii_only (name p) = true ∧
               ascii_only (category p) = true) (products st) →
  Forall (λ p, valid_record p ∧ ascii_only (name p) = true ∧
               ascii_only (category p) = true) (products (snd (handle st req))).
Proof.
  intros Ha Hst. unfold handle.
  apply (dispatch_spec (λ rs,
    Forall (λ p, valid_record p ∧ ascii_only (name p) = true ∧
                 ascii_only (category p) = true) (products (snd rs)))); [done|].
  unfold routes. repeat apply Forall_cons_2; [..|apply Forall_nil_2];
    intros ps Hm Hp; simpl route_stack; simpl run_stack.
  - done.
  - unfold asyncHandler, list_products. by destruct (by_term _ _).
  - unfold asyncHandler, get_product. by destruct (find_id _ _) as [[? ?]|].
  - unfold requireApiKey, validateProduct.
    destruct (x_api_key req) as [key|]; [|done].
    destruct (String.eqb _ "" || _); [done|].
    destruct (validation_errors (body req)) eqn:Ev; [|done].
    unfold asyncHandler, create_product.
    destruct (destructure _) as [[[[[n d] x] c] s]|] eqn:Hd; [|done].
    simpl. apply Forall_app. split; [done|]. apply Forall_singleton.
    apply (destructure_valid _ _ _ _ _ _ Ha Ev Hd).
  - unfold requireApiKey, validateProduct.
    destruct (x_api_key req) as [key|]; [|done].
    destruct (String.eqb _ "" || _); [done|].
    destruct (validation_errors (body req)) eqn:Ev; [|done].
    unfold asyncHandler, update_product.
    destruct (find_id _ _) as [[idx old]|]; [|done].
    destruct (destructure _) as [[[[[n d] x] c] s]|] eqn:Hd; [|done].
    simpl. apply Forall_insert; [done|].
    apply (destructure_valid _ _ _ _ _ _ Ha Ev Hd).
  - unfold requireApiKey.
    destruct (x_api_key req) as [key|]; [|done].
    destruct (String.eqb _ "" || _); [done|].
    unfold asyncHandler, delete_product.
    destruct (find_id _ _) as [[idx old]|]; [|done].
    simpl. by apply Forall_delete.
  - done.
Qed.

(** X17: whatever requests are served from the seeded state, as long as
    the names and categories their bodies submit are ASCII strings, every
    stored record has an ASCII name and an ASCII category with a character
    that is not white space, and a price that is not NaN. *)
Theorem stored_records_valid (reqs : list request) :
  Forall (λ req, ascii_fields (body req)) reqs →
  Forall (λ p, valid_record p ∧ ascii_only (name p) = true ∧
               ascii_only (category p) = true) (products (run initial reqs)).
Proof.
  assert (Forall (λ p, valid_record p ∧ ascii_only (name p) = true ∧
                       ascii_only (category p) = true) (products initial)) as Hinit.
  { unfold initial, seed. simpl. repeat constructor. }
  revert Hinit. generalize initial.
  induction reqs as [|req reqs IH]; intros st Hst Hreqs; simpl; [done|].
  apply Forall_cons in Hreqs as [Hreq Hreqs].
  apply IH; [|done]. by apply handle_keeps_valid.
Qed.

(** *** The stats handler on categories named like prototype properties *)

Lemma bump_other (acc : gmap string count) (k c : string) :
  k ≠ c → bump acc k !! c = acc !! c.
Proof.
  intros Hne. unfold bump.
  destruct (acc !! k) as [[n|s]|]; try by rewrite lookup_insert_ne.
  destruct (String.eqb k "__proto__"); [done|].
  destruct (inherited k Object_prototype_methods); by rewrite lookup_insert_ne.
Qed.

Lemma bump_proto (acc : gmap string count) (k : string) :
  acc !! "__proto__" = None → bump acc k !! "__proto__" = None.
Proof.
  intros Hnone. destruct (decide (k = "__proto__")) as [->|Hne].
  - unfold bump. by rewrite Hnone.
  - by rewrite bump_other.
Qed.

Lemma append_nonempty (s : string) : String.eqb (s ++ "1") "" = false.
Proof. by destruct s. Qed.

(** Once a key inherited from [Object.prototype] is met, its entry is a
    non-empty string, and stays one. *)
Lemma bump_inherited (acc : gmap string count) (k c src : string) :
  inherited c Object_prototype_methods = Some src →
  (acc !! c = None ∨ ∃ s, String.eqb s "" = false ∧ acc !! c = Some (Garbled s)) →
  (k = c → ∃ s, String.eqb s "" = false ∧ bump acc k !! c = Some (Garbled s)) ∧
  (bump acc k !! c = None ∨
   ∃ s, String.eqb s "" = false ∧ bump acc k !! c = Some (Garbled s)).
Proof.
  intros Hc Hacc.
  assert (String.eqb c "__proto__" = false) as Hnp.
  { destruct (String.eqb_spec c "__proto__") as [->|]; [done|done]. }
  destruct (decide (k = c)) as [->|Hne].
  - enough (∃ s, String.eqb s "" = false ∧ bump acc c !! c = Some (Garbled s))
      by naive_solver.
    unfold bump. destruct Hacc as [Hnone|(s & Hs & Hsome)].
    + rewrite Hnone, Hnp, Hc. exists (src ++ "1").
      split; [apply append_nonempty|apply lookup_insert_eq].
    + rewrite Hsome, Hs. exists (s ++ "1").
      split; [apply append_nonempty|apply lookup_insert_eq].
  - split; [done|]. by rewrite bump_other.
Qed.

(** X18: whatever the collection, the stats handler answers 200 with the
    number of records as [total]; but its map has no entry for the
    category "__proto__", and for a category that is the name of a method
    of [Object.prototype] (such as "constructor" or "toString") and occurs
    in the collection, the entry is a string and not a count. *)
Theorem stats_on_prototype_names (ps : params) (req : request) (st : state) :
  ∃ stats,
    product_stats ps req st =
      Send {| code := 200;
              content := StatsBody stats (length (products st)) |} st ∧
    stats !! "__proto__" = None ∧
    ∀ c src,
      inherited c Object_prototype_methods = Some src →
      c ∈ category <$> products st →
      ∃ s, stats !! c = Some (Garbled s).
Proof.
  eexists. split; [done|]. split.
  - generalize (lookup_empty (A:=count) (M:=gmap string) "__proto__").
    generalize (∅ : gmap string count).
    induction (products st) as [|p l IH]; intros acc Hacc; simpl; [done|].
    apply IH. by apply bump_proto.
  - intros c src Hc Hin.
    enough (∀ acc : gmap string count,
      (acc !! c = None ∨
       ∃ s, String.eqb s "" = false ∧ acc !! c = Some (Garbled s)) →
      let stats := fold_left (λ acc p, bump acc (category p)) (products st) acc in
      (stats !! c = None ∨
       ∃ s, String.eqb s "" = false ∧ stats !! c = Some (Garbled s)) ∧
      ((c ∈ category <$> products st ∨ acc !! c ≠ None) →
       ∃ s, stats !! c = Some (Garbled s))) as Hgen.
    { destruct (Hgen ∅) as [_ H]; [by left|]. apply H. by left. }
    clear Hin. induction (products st) as [|p l IH]; intros acc Hacc; simpl.
    + split; [done|]. intros [Hin|Hne]; [by apply elem_of_nil in Hin|].
      destruct Hacc as [?|(s & _ & ?)]; [done|by exists s].
    + destruct (bump_inherited acc (category p) c src Hc Hacc) as [Hhit Hinv].
      destruct (IH _ Hinv) as [IH1 IH2]. split; [done|].
      intros [Hin|Hne]; apply IH2.
      * apply elem_of_cons in Hin as [->|Hin]; [|by left].
        right. destruct (Hhit eq_refl) as (s & _ & ->). done.
      * right. destruct Hacc as [?|(s & _ & Hs)]; [done|].
        destruct (decide (category p = c)) as [Heq|Hneq].
        -- destruct (Hhit Heq) as (s' & _ & ->). done.
        -- rewrite bump_other by done. by rewrite Hs.
Qed.

(** *** Create, then delete *)

(** X21: creating a record under an id that no stored record carries and
    then deleting that id gives the collection back as it was; the DELETE
    answers with the record the POST answered with. *)
Theorem create_then_delete_restores (st : state) (qu qu' : Query.t)
    (b b' : list (string * Js.value)) :
  validation_errors b = [] →
  uuidv4 (uuid_calls st) ∉ ids st →
  let created := handle st (Request POST ["api"; "products"] (Some expected) qu b) in
  let deleted :=
    handle (snd created)
      (Request DELETE ["api"; "products"; uuidv4 (uuid_calls st)]
         (Some expected) qu' b') in
  code (fst created) = 201 ∧ code (fst deleted) = 200 ∧
  content (fst deleted) = content (fst created) ∧
  products (snd deleted) = products st.
Proof.
  intros Hb Hfresh created deleted.
  destruct (handle_post_valid st qu b Hb) as (n & x & c & s & _ & _ & _ & _ & Hpost).
  cbv zeta in Hpost. set (new := Product _ _ _ _ _ _) in Hpost.
  unfold deleted, created. rewrite Hpost. simpl.
  rewrite handle_delete, decide_True by done. simpl.
  rewrite find_id_middle by done. simpl.
  split_and!; [done..|]. rewrite delete_middle. apply app_nil_r.
Qed.

End Service.

(** * Instances on the seeded collection *)

(** C2, as stated, fails: a price of [Infinity] (the JSON number 1e999) is
    not a finite number, yet the create is answered 201 and the record is
    stored with that price, and an update with [-Infinity] is answered
    200. *)
Lemma infinite_price_accepted :
  finite_number (Js.get "price" (Sample.mug (Js.Str "") infinity)) = false ∧
  handle None Sample.uuidv4 initial
    (Sample.to POST ["api"; "products"] (Some "secret-key")
       (Sample.mug (Js.Str "") infinity)) =
    ({| code := 201;
        content := ProductBody
          (Product (Sample.uuidv4 0) "Mug" (Js.Str "") infinity "kitchen" true) |},
     {| products :=
          seed ++ [Product (Sample.uuidv4 0) "Mug" (Js.Str "") infinity "kitchen" true];
        uuid_calls := 1 |}) ∧
  finite_number (Js.get "price" (Sample.mug (Js.Str "") neg_infinity)) = false ∧
  fst (handle None Sample.uuidv4 initial
    (Sample.to PUT ["api"; "products"; "3"] (Some "secret-key")
       (Sample.mug (Js.Str "") neg_infinity))) =
    {| code := 200;
       content := ProductBody
         (Product "3" "Mug" (Js.Str "") neg_infinity "kitchen" true) |}.
Proof. repeat split; reflexivity. Qed.

Lemma price_not_a_number_rejected_witness :
  "price (number) is required" ∈ validation_errors Sample.priced_abc ∧
  Js.includes (Js.join "; " (validation_errors Sample.priced_abc))
    "price (number) is required" = true ∧
  handle None Sample.uuidv4 initial
    (Request POST ["api"; "products"] (Some (expected None)) Query.empty
       Sample.priced_abc) =
    ({| code := 400;
        content := ErrorBody "fail"
          (Js.join "; " (validation_errors Sample.priced_abc)) |}, initial) ∧
  handle None Sample.uuidv4 initial
    (Request PUT ["api"; "products"; "1"] (Some (expected None)) Query.empty
       Sample.priced_abc) =
    ({| code := 400;
        content := ErrorBody "fail"
          (Js.join "; " (validation_errors Sample.priced_abc)) |}, initial).
Proof.
  apply (price_not_a_number_rejected None Sample.uuidv4 initial "1" Query.empty
           Sample.priced_abc).
  intros x Hx. vm_compute in Hx. discriminate Hx.
Defined.

(** C3: for [limit=0] the handler computes [parseInt("0", 10) || 10], which
    is 10 because 0 is falsy, and only then floors it at 1: the limit used
    is 10, not the 1 that the floor [Math.max(1, ...)] is there to give,
    and the seeded collection comes back whole. *)
Lemma limit_zero_means_ten :
  effective_limit (Query.Make None None None (Some "0")) = 10%Z ∧
  effective_limit (Query.Make None None None (Some "0")) ≠ 1%Z ∧
  handle None Sample.uuidv4 initial (Sample.search None None None (Some "0")) =
    ({| code := 200; content := ListBody 3 1 3 seed |}, initial).
Proof. split_and!; [reflexivity | by vm_compute | reflexivity]. Qed.

Lemma put_replaces_fields_witness :
  ∃ (l1 l2 : list product) (old new : product),
    products initial = (l1 ++ old :: l2)%list ∧ id old = "2" ∧ ("2" ∉ id <$> l1) ∧
    handle None Sample.uuidv4 initial
      (Request PUT ["api"; "products"; "2"] (Some (expected None)) Query.empty
         (Sample.mug Js.Undefined 4)) =
      ({| code := 200; content := ProductBody new |},
       {| products := (l1 ++ new :: l2)%list; uuid_calls := uuid_calls initial |}) ∧
    id new = id old ∧
    Js.Str (name new) = Js.get "name" (Sample.mug Js.Undefined 4) ∧
    Js.Num (price new) = Js.get "price" (Sample.mug Js.Undefined 4) ∧
    Js.Str (category new) = Js.get "category" (Sample.mug Js.Undefined 4) ∧
    Js.Bool (inStock new) = Js.get "inStock" (Sample.mug Js.Undefined 4) ∧
    description new = Js.Str "".
Proof.
  apply (put_replaces_fields None Sample.uuidv4 initial "2" Query.empty
           (Sample.mug Js.Undefined 4)).
  - reflexivity.
  - apply list_elem_of_In. simpl. tauto.
Defined.

Lemma missing_id_not_found_witness :
  handle None Sample.uuidv4 initial
    (Request GET ["api"; "products"; "42"] None Query.empty []) =
    ({| code := 404; content := ErrorBody "fail" "Product not found" |}, initial) ∧
  (validation_errors (Sample.mug Js.Null 4) = [] →
   handle None Sample.uuidv4 initial
     (Request PUT ["api"; "products"; "42"] (Some (expected None)) Query.empty
        (Sample.mug Js.Null 4)) =
     ({| code := 404; content := ErrorBody "fail" "Product not found" |}, initial)) ∧
  handle None Sample.uuidv4 initial
    (Request DELETE ["api"; "products"; "42"] (Some (expected None)) Query.empty
       (Sample.mug Js.Null 4)) =
    ({| code := 404; content := ErrorBody "fail" "Product not found" |}, initial).
Proof.
  apply (missing_id_not_found None Sample.uuidv4 initial "42" Query.empty None
           (Sample.mug Js.Null 4)).
  intros Hin%list_elem_of_In. simpl in Hin.
  destruct Hin as [H|[H|[H|[]]]]; discriminate H.
Defined.

Lemma post_without_key_unauthorized_witness :
  serve None Sample.uuidv4 initial
    (Http POST ["api"; "products"] (Some "guess") Query.empty
       (Json (Sample.mug Js.Null 4))) =
    ({| code := 401; content := ErrorBody "fail" "Invalid or missing API key" |},
     initial).
Proof.
  apply (post_without_key_unauthorized None Sample.uuidv4 initial (Some "guess")
           Query.empty (Sample.mug Js.Null 4)).
  vm_compute. intros H. discriminate H.
Defined.

(** C7, as stated, fails for a body that is not JSON: [bodyParser.json()]
    runs before the key is looked at, and a POST without key whose body it
    refuses with status 400 is answered 400 with status "error", not
    401. *)
Lemma unparsable_post_answered_400 :
  serve None Sample.uuidv4 initial
    (Http POST ["api"; "products"] None Query.empty
       (Unparsable 400 "Unexpected end of JSON input")) =
    ({| code := 400;
        content := ErrorBody "error" "Unexpected end of JSON input" |}, initial) ∧
  code (fst (serve None Sample.uuidv4 initial
               (Http POST ["api"; "products"] None Query.empty
                  (Unparsable 400 "Unexpected end of JSON input")))) ≠ 401%nat.
Proof. split; [reflexivity|by vm_compute]. Qed.

Lemma delete_removes_one_witness :
  ∃ (l1 l2 : list product) (removed : product),
    products initial = (l1 ++ removed :: l2)%list ∧ id removed = "2" ∧
    handle None Sample.uuidv4 initial
      (Request DELETE ["api"; "products"; "2"] (Some (expected None)) Query.empty []) =
      ({| code := 200; content := ProductBody removed |},
       {| products := (l1 ++ l2)%list; uuid_calls := uuid_calls initial |}) ∧
    ("2" ∉ ids {| products := (l1 ++ l2)%list; uuid_calls := uuid_calls initial |}) ∧
    (∀ key' qu' b',
      handle None Sample.uuidv4
        {| products := (l1 ++ l2)%list; uuid_calls := uuid_calls initial |}
        (Request GET ["api"; "products"; "2"] key' qu' b') =
        ({| code := 404; content := ErrorBody "fail" "Product not found" |},
         {| products := (l1 ++ l2)%list; uuid_calls := uuid_calls initial |})) ∧
    (∀ key' qu' b' n page total data,
      fst (handle None Sample.uuidv4
             {| products := (l1 ++ l2)%list; uuid_calls := uuid_calls initial |}
             (Request GET ["api"; "products"] key' qu' b')) =
        {| code := 200; content := ListBody n page total data |} →
      "2" ∉ id <$> data).
Proof.
  apply (delete_removes_one None Sample.uuidv4 initial "2" Query.empty []).
  - apply (bool_decide_unpack _). vm_compute. exact I.
  - apply (bool_decide_unpack _). vm_compute. exact I.
Defined.



Lemma error_response_keeps_collection_witness :
  snd (handle None Sample.uuidv4 initial
         (Sample.to DELETE ["api"; "products"; "1"] None [])) = initial ∧
  products (snd (handle None Sample.uuidv4 initial
                   (Sample.to DELETE ["api"; "products"; "1"] None []))) =
    products initial.
Proof.
  apply (error_response_keeps_collection None Sample.uuidv4 initial
           (Sample.to DELETE ["api"; "products"; "1"] None [])).
  left. reflexivity.
Defined.

(** The examples of the spec on the seeded collection. *)
Example seeded_filters :
  fst (handle None Sample.uuidv4 initial
         (Sample.search (Some "electronics") None None None)) =
    {| code := 200; content := ListBody 2 1 2 (take 2 seed) |} ∧
  fst (handle None Sample.uuidv4 initial
         (Sample.search None (Some "coffee") None None)) =
    {| code := 200; content := ListBody 1 1 1 (drop 2 seed) |} ∧
  fst (handle None Sample.uuidv4 initial
         (Sample.search None None (Some "1") (Some "1"))) =
    {| code := 200; content := ListBody 1 1 3 (take 1 seed) |}.
Proof. split_and!; reflexivity. Qed.

(** * Instances of the further properties *)

Lemma validation_accepts_exactly_witness :
  (validation_errors Sample.priced_abc = [] ↔
   name_ok Sample.priced_abc ∧ price_ok Sample.priced_abc ∧
   category_ok Sample.priced_abc ∧ inStock_ok Sample.priced_abc) ∧
  code (fst (serve None Sample.uuidv4 initial
               (Http POST ["api"; "products"] (Some (expected None)) Query.empty
                  (Json Sample.priced_abc)))) =
    (if decide (validation_errors Sample.priced_abc = []) then 201 else 400)%nat.
Proof.
  apply (validation_accepts_exactly None Sample.uuidv4 initial Query.empty
           Sample.priced_abc).
  intros s [H|H]; vm_compute in H; injection H as <-; reflexivity.
Defined.

Lemma validation_message_names_violations_witness :
  (Js.includes (Js.join "; " (validation_errors Sample.priced_abc))
     "name (string) is required" = true ↔ ¬ name_ok Sample.priced_abc) ∧
  (Js.includes (Js.join "; " (validation_errors Sample.priced_abc))
     "price (number) is required" = true ↔ ¬ price_ok Sample.priced_abc) ∧
  (Js.includes (Js.join "; " (validation_errors Sample.priced_abc))
     "category (string) is required" = true ↔ ¬ category_ok Sample.priced_abc) ∧
  (Js.includes (Js.join "; " (validation_errors Sample.priced_abc))
     "inStock (boolean) is required" = true ↔ ¬ inStock_ok Sample.priced_abc).
Proof.
  apply (validation_message_names_violations Sample.priced_abc).
  intros s [H|H]; vm_compute in H; injection H as <-; reflexivity.
Defined.

Lemma invalid_body_rejected_before_lookup_witness :
  serve None Sample.uuidv4 initial
    (Http POST ["api"; "products"] (Some (expected None)) Query.empty
       (Json Sample.priced_abc)) =
    ({| code := 400;
        content := ErrorBody "fail"
          (Js.join "; " (validation_errors Sample.priced_abc)) |}, initial) ∧
  serve None Sample.uuidv4 initial
    (Http PUT ["api"; "products"; "no-such-id"] (Some (expected None))
       Query.empty (Json Sample.priced_abc)) =
    ({| code := 400;
        content := ErrorBody "fail"
          (Js.join "; " (validation_errors Sample.priced_abc)) |}, initial).
Proof.
  apply (invalid_body_rejected_before_lookup None Sample.uuidv4 initial
           "no-such-id" Query.empty Sample.priced_abc).
  - intros s [H|H]; vm_compute in H; injection H as <-; reflexivity.
  - vm_compute. intros H. discriminate H.
Defined.

Lemma write_without_key_unauthorized_witness :
  (∀ b,
     serve None Sample.uuidv4 initial
       (Http PUT ["api"; "products"; "1"] None Query.empty (Json b)) =
       ({| code := 401; content := ErrorBody "fail" "Invalid or missing API key" |},
        initial) ∧
     serve None Sample.uuidv4 initial
       (Http DELETE ["api"; "products"; "1"] None Query.empty (Json b)) =
       ({| code := 401; content := ErrorBody "fail" "Invalid or missing API key" |},
        initial)) ∧
  (∀ c m,
     serve None Sample.uuidv4 initial
       (Http PUT ["api"; "products"; "1"] None Query.empty (Unparsable c m)) =
       ({| code := if (c =? 0)%nat then 500%nat else c;
           content := ErrorBody "error"
             (if String.eqb m "" then "Internal Server Error" else m) |}, initial) ∧
     serve None Sample.uuidv4 initial
       (Http DELETE ["api"; "products"; "1"] None Query.empty (Unparsable c m)) =
       ({| code := if (c =? 0)%nat then 500%nat else c;
           content := ErrorBody "error"
             (if String.eqb m "" then "Internal Server Error" else m) |}, initial)).
Proof.
  apply (write_without_key_unauthorized None Sample.uuidv4 initial "1" None
           Query.empty).
  intros H. discriminate H.
Defined.

Lemma create_appends_submitted_witness :
  ∃ new : product,
    handle None Sample.uuidv4 initial
      (Request POST ["api"; "products"] (Some (expected None)) Query.empty
         (Sample.mug Js.Null 6)) =
      ({| code := 201; content := ProductBody new |},
       {| products := (products initial ++ [new])%list;
          uuid_calls := S (uuid_calls initial) |}) ∧
    id new = Sample.uuidv4 (uuid_calls initial) ∧
    Js.Str (name new) = Js.get "name" (Sample.mug Js.Null 6) ∧
    Js.Num (price new) = Js.get "price" (Sample.mug Js.Null 6) ∧
    Js.Str (category new) = Js.get "category" (Sample.mug Js.Null 6) ∧
    Js.Bool (inStock new) = Js.get "inStock" (Sample.mug Js.Null 6) ∧
    description new = Js.Null.
Proof.
  apply (create_appends_submitted None Sample.uuidv4 initial Query.empty
           (Sample.mug Js.Null 6)).
  reflexivity.
Defined.

Lemma create_then_get_witness :
  code (fst (handle None Sample.uuidv4 initial
               (Request POST ["api"; "products"] (Some (expected None))
                  Query.empty (Sample.mug Js.Null 6)))) = 201 ∧
  code (fst (handle None Sample.uuidv4
               (snd (handle None Sample.uuidv4 initial
                       (Request POST ["api"; "products"] (Some (expected None))
                          Query.empty (Sample.mug Js.Null 6))))
               (Request GET ["api"; "products"; Sample.uuidv4 (uuid_calls initial)]
                  None Query.empty []))) = 200 ∧
  (Sample.uuidv4 (uuid_calls initial) ∉ ids initial →
   content (fst (handle None Sample.uuidv4
                   (snd (handle None Sample.uuidv4 initial
                           (Request POST ["api"; "products"] (Some (expected None))
                              Query.empty (Sample.mug Js.Null 6))))
                   (Request GET
                      ["api"; "products"; Sample.uuidv4 (uuid_calls initial)]
                      None Query.empty []))) =
   content (fst (handle None Sample.uuidv4 initial
                   (Request POST ["api"; "products"] (Some (expected None))
                      Query.empty (Sample.mug Js.Null 6))))) ∧
  (∀ idx old,
     find_id (Sample.uuidv4 (uuid_calls initial)) (products initial) =
       Some (idx, old) →
     content (fst (handle None Sample.uuidv4
                     (snd (handle None Sample.uuidv4 initial
                             (Request POST ["api"; "products"]
                                (Some (expected None)) Query.empty
                                (Sample.mug Js.Null 6))))
                     (Request GET
                        ["api"; "products"; Sample.uuidv4 (uuid_calls initial)]
                        None Query.empty []))) = ProductBody old).
Proof.
  apply (create_then_get None Sample.uuidv4 initial Query.empty Query.empty None
           (Sample.mug Js.Null 6) []).
  reflexivity.
Defined.

Lemma put_then_get_and_again_witness :
  code (fst (handle None Sample.uuidv4 initial
               (Request PUT ["api"; "products"; "2"] (Some (expected None))
                  Query.empty (Sample.mug Js.Null 6)))) = 200 ∧
  handle None Sample.uuidv4
    (snd (handle None Sample.uuidv4 initial
            (Request PUT ["api"; "products"; "2"] (Some (expected None))
               Query.empty (Sample.mug Js.Null 6))))
    (Request GET ["api"; "products"; "2"] None Query.empty []) =
    (fst (handle None Sample.uuidv4 initial
            (Request PUT ["api"; "products"; "2"] (Some (expected None))
               Query.empty (Sample.mug Js.Null 6))),
     snd (handle None Sample.uuidv4 initial
            (Request PUT ["api"; "products"; "2"] (Some (expected None))
               Query.empty (Sample.mug Js.Null 6)))) ∧
  handle None Sample.uuidv4
    (snd (handle None Sample.uuidv4 initial
            (Request PUT ["api"; "products"; "2"] (Some (expected None))
               Query.empty (Sample.mug Js.Null 6))))
    (Request PUT ["api"; "products"; "2"] (Some (expected None))
       Query.empty (Sample.mug Js.Null 6)) =
    (fst (handle None Sample.uuidv4 initial
            (Request PUT ["api"; "products"; "2"] (Some (expected None))
               Query.empty (Sample.mug Js.Null 6))),
     snd (handle None Sample.uuidv4 initial
            (Request PUT ["api"; "products"; "2"] (Some (expected None))
               Query.empty (Sample.mug Js.Null 6)))).
Proof.
  apply (put_then_get_and_again None Sample.uuidv4 initial "2" Query.empty
           Query.empty None (Sample.mug Js.Null 6) []).
  - reflexivity.
  - apply (bool_decide_unpack _). vm_compute. exact I.
Defined.

Lemma list_page_bounds_witness :
  200%nat = 200%nat ∧ initial = initial ∧ 0%nat = length (@nil product) ∧
  (0 ≤ 3)%nat ∧
  (Z.of_nat 0 ≤ effective_limit (Query.Make None None (Some "3") (Some "2")))%Z ∧
  (3 ≤ length (products initial))%nat ∧
  3%Z = effective_page (Query.Make None None (Some "3") (Some "2")) ∧
  (1 ≤ 3)%Z ∧
  [] ⊆ products initial ∧
  ((Z.of_nat 3 ≤
    (3 - 1) * effective_limit (Query.Make None None (Some "3") (Some "2")))%Z →
   @nil product = []).
Proof.
  apply (list_page_bounds None Sample.uuidv4 initial initial None
           (Query.Make None None (Some "3") (Some "2")) [] 200 0 3 3 []);
    reflexivity.
Defined.

Lemma product_stats_counts_witness :
  ∃ stats,
    product_stats [] (Sample.to GET ["api"; "products"; "stats"] None []) initial =
      Send {| code := 200;
              content := StatsBody stats (length (products initial)) |} initial ∧
    ∀ c, stats !! c =
         match count_category c (products initial) with
         | 0 => None
         | n => Some (Count n)
         end.
Proof.
  apply (product_stats_counts []
           (Sample.to GET ["api"; "products"; "stats"] None []) initial).
  repeat constructor.
Defined.

Lemma list_products_textual_witness :
  handle None Sample.uuidv4 initial
    (Request GET ["api"; "products"] None
       (Query.Make (Some "Electronics") (Some "PHONE") None None) []) =
    ({| code := 200;
        content :=
          ListBody
            (length
               (take (Z.to_nat (effective_limit
                        (Query.Make (Some "Electronics") (Some "PHONE") None None)))
                  (drop (Z.to_nat
                           ((effective_page
                               (Query.Make (Some "Electronics") (Some "PHONE")
                                  None None) - 1) *
                            effective_limit
                              (Query.Make (Some "Electronics") (Some "PHONE")
                                 None None)))
                     (filter_when text_match (Some "PHONE")
                        (filter_when category_match (Some "Electronics")
                           (products initial))))))
            (effective_page
               (Query.Make (Some "Electronics") (Some "PHONE") None None))
            (length
               (filter_when text_match (Some "PHONE")
                  (filter_when category_match (Some "Electronics")
                     (products initial))))
            (take (Z.to_nat (effective_limit
                     (Query.Make (Some "Electronics") (Some "PHONE") None None)))
               (drop (Z.to_nat
                        ((effective_page
                            (Query.Make (Some "Electronics") (Some "PHONE")
                               None None) - 1) *
                         effective_limit
                           (Query.Make (Some "Electronics") (Some "PHONE")
                              None None)))
                  (filter_when text_match (Some "PHONE")
                     (filter_when category_match (Some "Electronics")
                        (products initial))))) |}, initial).
Proof.
  apply (list_products_textual None Sample.uuidv4 initial None
           (Query.Make (Some "Electronics") (Some "PHONE") None None) []);
    try reflexivity.
  - repeat constructor; intros d [= <-]; reflexivity.
  - repeat constructor; by eexists.
Defined.

Lemma list_fails_exactly_when_witness :
  code (fst (serve None Sample.uuidv4 initial
               (Http GET ["api"; "products"] None
                  (Query.Make (Some "kitchen") (Some "zzz") None None)
                  (Json [])))) = 200%nat.
Proof.
  apply (list_fails_exactly_when None Sample.uuidv4 initial None
           (Query.Make (Some "kitchen") (Some "zzz") None None) []);
    try reflexivity.
  repeat constructor; intros d [= <-]; reflexivity.
Defined.

Lemma stored_records_valid_witness :
  Forall (λ p, valid_record p ∧ ascii_only (name p) = true ∧
               ascii_only (category p) = true)
    (products (run None Sample.uuidv4 initial Sample.two_creates)).
Proof.
  apply (stored_records_valid None Sample.uuidv4 Sample.two_creates).
  repeat constructor; intros s [H|H]; vm_compute in H; injection H as <-;
    reflexivity.
Defined.

Lemma create_then_delete_restores_witness :
  code (fst (handle None Sample.uuidv4 initial
               (Request POST ["api"; "products"] (Some (expected None))
                  Query.empty (Sample.mug Js.Null 6)))) = 201 ∧
  code (fst (handle None Sample.uuidv4
               (snd (handle None Sample.uuidv4 initial
                       (Request POST ["api"; "products"] (Some (expected None))
                          Query.empty (Sample.mug Js.Null 6))))
               (Request DELETE
                  ["api"; "products"; Sample.uuidv4 (uuid_calls initial)]
                  (Some (expected None)) Query.empty []))) = 200 ∧
  content (fst (handle None Sample.uuidv4
                  (snd (handle None Sample.uuidv4 initial
                          (Request POST ["api"; "products"] (Some (expected None))
                             Query.empty (Sample.mug Js.Null 6))))
                  (Request DELETE
                     ["api"; "products"; Sample.uuidv4 (uuid_calls initial)]
                     (Some (expected None)) Query.empty []))) =
  content (fst (handle None Sample.uuidv4 initial
                  (Request POST ["api"; "products"] (Some (expected None))
                     Query.empty (Sample.mug Js.Null 6)))) ∧
  products (snd (handle None Sample.uuidv4
                   (snd (handle None Sample.uuidv4 initial
                           (Request POST ["api"; "products"]
                              (Some (expected None)) Query.empty
                              (Sample.mug Js.Null 6))))
                   (Request DELETE
                      ["api"; "products"; Sample.uuidv4 (uuid_calls initial)]
                      (Some (expected None)) Query.empty []))) =
  products initial.
Proof.
  apply (create_then_delete_restores None Sample.uuidv4 initial Query.empty
           Query.empty (Sample.mug Js.Null 6) []).
  - reflexivity.
  - apply (bool_decide_unpack _). vm_compute. exact I.
Defined.
